(** * Digital-forensic: evidence registry and web session layer

    A shallow embedding of [forens_core/evidence.py] and of the request
    handlers of [webapp/app.py], with the properties the specification
    states about them.

    Conventions.
    - A Python [str] that only ever holds file names, tokens and messages is a
      Rocq [string]; the text obtained by decoding file content is a list of
      Unicode code points.
    - A Python [int] is a [Z]; the evidence counter, which starts at 1 and is
      only ever incremented, is a [nat].
    - A Python [dict] used as a table is a [gmap]; a [dict] with a fixed set
      of keys is a record.
    - A call that may raise returns a [py_result]. *)

From Stdlib Require Import ZArith NArith List Ascii String Strings.Byte.
From Stdlib Require Import DecimalString DecimalNat Decimal.
From stdpp Require Import gmap strings list.

Local Open Scope string_scope.

(** ** Zero-padded decimal formatting: the format spec [03d] *)

Module PyFormat.

(** [str(n)] for a non-negative integer. *)
Definition decimal (n : nat) : string :=
  NilEmpty.string_of_uint (Nat.to_uint n).

Fixpoint zeros (k : nat) : string :=
  match k with
  | O => EmptyString
  | S k' => String "0" (zeros k')
  end.

(** [format(n, "0{w}d")]: the decimal digits, padded on the left with
    zeros up to width [w]; never truncated. *)
Definition zero_pad (w : nat) (n : nat) : string :=
  let s := decimal n in
  zeros (w - String.length s) +:+ s.

Definition is_digit (c : ascii) : bool :=
  let k := nat_of_ascii c in (48 <=? k)%nat && (k <=? 57)%nat.

Fixpoint all_digits (s : string) : bool :=
  match s with
  | EmptyString => true
  | String c s' => is_digit c && all_digits s'
  end.

(** The number a digit string denotes, leading zeros allowed. *)
Definition read_decimal (s : string) : option nat :=
  option_map Nat.of_uint (NilEmpty.uint_of_string s).

End PyFormat.

(** ** forens_core/evidence.py *)

Module Evidence.

(** The value stored under an evidence id: [{"path": path, "open": bool}]. *)
Record EvidenceRecord := mkRecord {
  path : string;
  open : bool
}.

(** The module globals. *)
Record registry := mkRegistry {
  _evidence_db : gmap string EvidenceRecord;
  _next_id : nat
}.

(** The state right after the module is imported. *)
Definition initial : registry :=
  {| _evidence_db := ∅; _next_id := 1 |}.

(** [f"E{_next_id:03d}"] *)
Definition eid_of (n : nat) : string :=
  String "E" (PyFormat.zero_pad 3 n).

Definition add_evidence (p : string) (st : registry) : string * registry :=
  let eid := eid_of (_next_id st) in
  (eid,
   {| _evidence_db := <[eid := {| path := p; open := true |}]> (_evidence_db st);
      _next_id := S (_next_id st) |}).

Definition resolve_evidence (eid : string) (st : registry) : option EvidenceRecord :=
  _evidence_db st !! eid.

Definition close_evidence (eid : string) (st : registry) : bool * registry :=
  match _evidence_db st !! eid with
  | Some r =>
      (true,
       {| _evidence_db := <[eid := {| path := path r; open := false |}]> (_evidence_db st);
          _next_id := _next_id st |})
  | None => (false, st)
  end.

(** A client of the module: the calls it can make, and what each returns. *)
Inductive call :=
| AddEvidence (p : string)
| ResolveEvidence (eid : string)
| CloseEvidence (eid : string).

Inductive answer :=
| Added (eid : string)
| Resolved (r : option EvidenceRecord)
| Closed (b : bool).

Definition step (c : call) (st : registry) : answer * registry :=
  match c with
  | AddEvidence p => let '(eid, st') := add_evidence p st in (Added eid, st')
  | ResolveEvidence eid => (Resolved (resolve_evidence eid st), st)
  | CloseEvidence eid => let '(b, st') := close_evidence eid st in (Closed b, st')
  end.

(** Runs the calls in order; the answers come back in the same order. *)
Fixpoint run (cs : list call) (st : registry) : list answer * registry :=
  match cs with
  | [] => ([], st)
  | c :: cs' =>
      let '(a, st1) := step c st in
      let '(as_, st2) := run cs' st1 in
      (a :: as_, st2)
  end.

(** The identifiers handed out by the registrations of a run. *)
Fixpoint issued (answers : list answer) : list string :=
  match answers with
  | [] => []
  | Added eid :: rest => eid :: issued rest
  | _ :: rest => issued rest
  end.

Fixpoint registrations (cs : list call) : nat :=
  match cs with
  | [] => 0
  | AddEvidence _ :: rest => S (registrations rest)
  | _ :: rest => registrations rest
  end.

(** Full match of the regular expression [E\d{3,}] on an ASCII string. *)
Definition matches_E_d3 (s : string) : bool :=
  match s with
  | String "E" ds => (3 <=? String.length ds)%nat && PyFormat.all_digits ds
  | _ => false
  end.

(** Every key of the table was made from a counter value already used. *)
Definition well_numbered (st : registry) : Prop :=
  ∀ eid, is_Some (_evidence_db st !! eid) → ∃ k, k < _next_id st ∧ eid = eid_of k.

(** The counter an identifier was made from. *)
Definition eid_counter (s : string) : option nat :=
  match s with
  | String "E" ds => PyFormat.read_decimal ds
  | _ => None
  end.

End Evidence.

(** ** The Python built-ins and library functions the web layer calls *)

Module Py.

(** Exception classes the handlers can meet.  [RuntimeError] stands for any
    subclass of [Exception] not listed; [KeyboardInterrupt] for the
    [BaseException]s that [except Exception] does not catch. *)
Inductive exn_class :=
| ImportError
| ValueError
| TypeError
| AttributeError
| OSError
| HTTPException
| RuntimeError
| KeyboardInterrupt.

Record exn := mkExn { exn_cls : exn_class; exn_str : string }.

(** [isinstance(e, ImportError)] *)
Definition is_ImportError (e : exn) : bool :=
  match exn_cls e with ImportError => true | _ => false end.

(** [isinstance(e, Exception)] *)
Definition is_Exception (e : exn) : bool :=
  match exn_cls e with KeyboardInterrupt => false | _ => true end.

Inductive py_result (A : Type) :=
| Return (a : A)
| Raise (e : exn).
Arguments Return {A} a.
Arguments Raise {A} e.

(** A JSON document as [json.loads] builds it.  [JNum] stands for any JSON
    number; [JDict] lists the items of the dict, keys distinct. *)
#[local] Unset Elimination Schemes.
Inductive json :=
| JNull
| JBool (b : bool)
| JNum (n : Z)
| JStr (s : string)
| JList (l : list json)
| JDict (items : list (string * json)).
#[local] Set Elimination Schemes.

(** [d.get(key, default)] on the items of a dict. *)
Fixpoint dict_get (key : string) (items : list (string * json)) (default : json) : json :=
  match items with
  | [] => default
  | (k, v) :: rest => if String.eqb k key then v else dict_get key rest default
  end.

Fixpoint take_str (n : nat) (s : string) : string :=
  match n, s with
  | S n', String c s' => String c (take_str n' s')
  | _, _ => EmptyString
  end.

Fixpoint drop_str (n : nat) (s : string) : string :=
  match n, s with
  | S n', String _ s' => drop_str n' s'
  | _, _ => s
  end.

Fixpoint rfind_from (c : ascii) (s : string) (i last : Z) : Z :=
  match s with
  | EmptyString => last
  | String a s' => rfind_from c s' (i + 1) (if Ascii.eqb a c then i else last)
  end.

(** [s.rfind(c)] for a one-character [c]: the highest index, or -1. *)
Definition rfind (s : string) (c : ascii) : Z := rfind_from c s 0 (-1).

(** The loop of [genericpath._splitext] that skips the leading dots of the
    file name; [n] is the number of iterations left, [dotIndex - filenameIndex]. *)
Fixpoint splitext_loop (n : nat) (p : string) (filenameIndex dotIndex : Z) : string * string :=
  match n with
  | O => (p, EmptyString)
  | S n' =>
      match String.get (Z.to_nat filenameIndex) p with
      | Some "."%char => splitext_loop n' p (filenameIndex + 1) dotIndex
      | _ => (take_str (Z.to_nat dotIndex) p, drop_str (Z.to_nat dotIndex) p)
      end
  end.

(** [os.path.splitext] of posixpath: [sep = "/"], no [altsep], [extsep = "."]. *)
Definition splitext (p : string) : string * string :=
  let sepIndex := rfind p "/" in
  let dotIndex := rfind p "." in
  if (sepIndex <? dotIndex)%Z
  then splitext_loop (Z.to_nat (dotIndex - (sepIndex + 1))) p (sepIndex + 1) dotIndex
  else (p, EmptyString).

(** [os.path.basename] of posixpath: [p[p.rfind("/") + 1:]]. *)
Definition basename (p : string) : string :=
  drop_str (Z.to_nat (rfind p "/" + 1)) p.

Definition startswith_slash (s : string) : bool :=
  match s with String "/" _ => true | _ => false end.

Fixpoint endswith_slash (s : string) : bool :=
  match s with
  | EmptyString => false
  | String c EmptyString => Ascii.eqb c "/"
  | String _ s' => endswith_slash s'
  end.

(** [os.path.join(a, b)] of posixpath, two components. *)
Definition join (a b : string) : string :=
  if startswith_slash b then b
  else if String.eqb a "" || endswith_slash a then a +:+ b
  else a +:+ "/" +:+ b.

(** The white space [int] skips, among the code points below 256: the
    ASCII characters tab to carriage return and space, and the two
    non-ASCII spaces U+0085 and U+00A0.  The separators U+001C to U+001F
    are not skipped. *)
Definition is_space (c : ascii) : bool :=
  let k := nat_of_ascii c in
  ((9 <=? k) && (k <=? 13) || (k =? 32) || (k =? 133) || (k =? 160))%nat.

Fixpoint lstrip (cs : list ascii) : list ascii :=
  match cs with
  | c :: rest => if is_space c then lstrip rest else cs
  | [] => []
  end.

Definition strip (cs : list ascii) : list ascii :=
  rev (lstrip (rev (lstrip cs))).

Definition digit_value (c : ascii) : Z := Z.of_nat (nat_of_ascii c) - 48.

(** The digits of a decimal literal; a single underscore may separate two
    digits.  Returns the value and the number of digits read. *)
Fixpoint int_digits (cs : list ascii) (after_digit : bool) (acc : Z) (count : nat)
  : option (Z * nat) :=
  match cs with
  | [] => if after_digit then Some (acc, count) else None
  | c :: rest =>
      if PyFormat.is_digit c
      then int_digits rest true (10 * acc + digit_value c) (S count)
      else if Ascii.eqb c "_" && after_digit then int_digits rest false acc count
      else None
  end.

(** [sys.get_int_max_str_digits()], the interpreter's default. *)
Definition int_max_str_digits : nat := 4300.

(** [int(s)] for a [str] argument, base 10: surrounding white space, an
    optional sign, then the digits.  [None] is [ValueError]. *)
Definition int_of_str (s : string) : option Z :=
  let body := strip (list_ascii_of_string s) in
  let '(negative, ds) :=
    match body with
    | "-"%char :: rest => (true, rest)
    | "+"%char :: rest => (false, rest)
    | _ => (false, body)
    end in
  match int_digits ds false 0 0 with
  | Some (v, count) =>
      if (int_max_str_digits <? count)%nat then None
      else Some (if negative then (- v)%Z else v)
  | None => None
  end.

Definition hex_digit (n : N) : ascii :=
  ascii_of_N (if (n <? 10)%N then 48 + n else 87 + n).

(** One character of [repr(s)] inside quotes [quote]. *)
Definition repr_char (quote c : ascii) : string :=
  let k := nat_of_ascii c in
  if Ascii.eqb c quote || Ascii.eqb c "\" then String "\" (String c EmptyString)
  else if (k =? 9)%nat then "\t"
  else if (k =? 10)%nat then "\n"
  else if (k =? 13)%nat then "\r"
  else if ((k <? 32) || (k =? 127) || (128 <=? k) && (k <=? 160) || (k =? 173))%nat
  then String "\" (String "x"
         (String (hex_digit (N.of_nat k / 16))
            (String (hex_digit (N.of_nat k mod 16)) EmptyString)))
  else String c EmptyString.

Fixpoint repr_chars (quote : ascii) (s : string) : string :=
  match s with
  | EmptyString => String quote EmptyString
  | String c s' => repr_char quote c +:+ repr_chars quote s'
  end.

Fixpoint has_char (c : ascii) (s : string) : bool :=
  match s with
  | EmptyString => false
  | String a s' => Ascii.eqb a c || has_char c s'
  end.

(** [repr(s)] for a [str] of code points below 256: double quotes when the
    string holds a single quote and no double quote, single quotes
    otherwise. *)
Definition repr (s : string) : string :=
  let quote :=
    if has_char "'" s && negb (has_char "034" s) then "034"%char else "'"%char in
  String quote (repr_chars quote s).

(** The digits of the run of digits and underscores a literal starts with,
    when that run is well formed; what follows the run is not looked at. *)
Fixpoint int_scan (cs : list ascii) (after_underscore : bool) (count : nat)
  : option nat :=
  match cs with
  | [] => if after_underscore then None else Some count
  | c :: rest =>
      if PyFormat.is_digit c then int_scan rest false (S count)
      else if Ascii.eqb c "_"
      then (if after_underscore then None else int_scan rest true count)
      else (if after_underscore then None else Some count)
  end.

Definition int_run_digits (s : string) : option nat :=
  let body := lstrip (list_ascii_of_string s) in
  let ds :=
    match body with
    | "-"%char :: rest => rest
    | "+"%char :: rest => rest
    | _ => body
    end in
  match ds with
  | "_"%char :: _ => None
  | _ => int_scan ds false 0
  end.

(** [str(e)] of the [ValueError] [int(s)] raises: the digit limit is
    reported as soon as the leading run of digits exceeds it, any other
    failure as an invalid literal, with at most 200 characters of
    [repr(s)]. *)
Definition int_error_text (s : string) : string :=
  let invalid := "invalid literal for int() with base 10: " +:+ take_str 200 (repr s) in
  match int_run_digits s with
  | Some count =>
      if (int_max_str_digits <? count)%nat
      then "Exceeds the limit (" +:+ PyFormat.decimal int_max_str_digits
           +:+ " digits) for integer string conversion: value has "
           +:+ PyFormat.decimal count
           +:+ " digits; use sys.set_int_max_str_digits() to increase the limit"
      else invalid
  | None => invalid
  end.

(** [int(x)] where [x] is a [str] or [None]. *)
Definition int (x : option string) : py_result Z :=
  match x with
  | None => Raise (mkExn TypeError "int() argument must be a string, a bytes-like object or a real number, not 'NoneType'")
  | Some s =>
      match int_of_str s with
      | Some z => Return z
      | None => Raise (mkExn ValueError (int_error_text s))
      end
  end.

(** [str(z)] for an [int]. *)
Definition str_of_int (z : Z) : string :=
  if (z <? 0)%Z then String "-" (PyFormat.decimal (Z.to_nat (- z)))
  else PyFormat.decimal (Z.to_nat z).

(** [bytes.hex()]: two lower-case hexadecimal digits per byte. *)
Fixpoint hex (bs : list byte) : string :=
  match bs with
  | [] => EmptyString
  | b :: rest =>
      let n := Byte.to_N b in
      String (hex_digit (n / 16)) (String (hex_digit (n mod 16)) (hex rest))
  end.

(** A [str] of code points below 256 as a sequence of code points. *)
Definition code_points (s : string) : list N :=
  map N_of_ascii (list_ascii_of_string s).

End Py.

(** ** [bytes.decode("utf-8")], strict error handling *)

Module Utf8.

Definition between (lo hi b : N) : bool := ((lo <=? b) && (b <=? hi))%N.

(** A continuation byte, [10xxxxxx]. *)
Definition continuation (b : N) : bool := between 0x80 0xBF b.

Definition payload (b : N) : N := N.land b 0x3F.

(** The bounds of the second byte after lead byte [b0]: they exclude the
    overlong forms, the surrogates and the code points above U+10FFFF. *)
Definition second_lo (b0 : N) : N :=
  if (b0 =? 0xE0)%N then 0xA0 else if (b0 =? 0xF0)%N then 0x90 else 0x80.

Definition second_hi (b0 : N) : N :=
  if (b0 =? 0xED)%N then 0x9F else if (b0 =? 0xF4)%N then 0x8F else 0xBF.

(** The code points of a well-formed byte sequence; [None] where Python
    raises [UnicodeDecodeError]. *)
Fixpoint decode (bs : list byte) : option (list N) :=
  match bs with
  | [] => Some []
  | x0 :: r0 =>
      let b0 := Byte.to_N x0 in
      if (b0 <? 0x80)%N then option_map (cons b0) (decode r0)
      else if between 0xC2 0xDF b0 then
        match r0 with
        | x1 :: r1 =>
            let b1 := Byte.to_N x1 in
            if continuation b1
            then option_map
                   (cons (N.lor (N.shiftl (N.land b0 0x1F) 6) (payload b1)))
                   (decode r1)
            else None
        | _ => None
        end
      else if between 0xE0 0xEF b0 then
        match r0 with
        | x1 :: x2 :: r2 =>
            let b1 := Byte.to_N x1 in
            let b2 := Byte.to_N x2 in
            if between (second_lo b0) (second_hi b0) b1 && continuation b2
            then option_map
                   (cons (N.lor (N.shiftl (N.land b0 0x0F) 12)
                            (N.lor (N.shiftl (payload b1) 6) (payload b2))))
                   (decode r2)
            else None
        | _ => None
        end
      else if between 0xF0 0xF4 b0 then
        match r0 with
        | x1 :: x2 :: x3 :: r3 =>
            let b1 := Byte.to_N x1 in
            let b2 := Byte.to_N x2 in
            let b3 := Byte.to_N x3 in
            if between (second_lo b0) (second_hi b0) b1
               && continuation b2 && continuation b3
            then option_map
                   (cons (N.lor (N.shiftl (N.land b0 0x07) 18)
                            (N.lor (N.shiftl (payload b1) 12)
                               (N.lor (N.shiftl (payload b2) 6) (payload b3)))))
                   (decode r3)
            else None
        | _ => None
        end
      else None
  end.

End Utf8.

(** ** webapp/app.py *)

Module WebApp.
Import Py.

(** *** The values the image handlers return *)

Module DirectoryEntry.
Record t := mk {
  name : string;
  is_directory : bool;
  inode_number : Z;
  size : string;
  accessed : string;
  modified : string;
  created : string;
  changed : string
}.
End DirectoryEntry.

Module CarvedFile.
Record t := mk {
  name : string;
  path : string;
  size : string;
  inode : Z;
  type : string;
  extension : string;
  description : string;
  accessed : string;
  modified : string;
  created : string;
  changed : string
}.
End CarvedFile.

Module SearchResult.
Record t := mk {
  name : string;
  path : string;
  size : string;
  accessed : string;
  modified : string;
  created : string;
  changed : string;
  inode_item : string
}.
End SearchResult.

Module FileType.
Record t := mk {
  type : string;
  extension : string;
  description : string
}.
End FileType.

(** [(index, label, start offset, size)] *)
Definition partition : Type := Z * string * Z * Z.

(** The second component of what [get_file_content] returns; no handler of
    this file reads it. *)
Definition metadata : Type := option string.

(** *** class DemoImageHandler *)

Module DemoImageHandler.

Record t := mk {
  image_path : string;
  is_wiped_image : bool
}.

Definition __init__ (image_path : string) : t :=
  {| image_path := image_path; is_wiped_image := false |}.

Definition get_partitions (self : t) : list partition :=
  [(1%Z, "Demo Partition", 2048%Z, 1000000%Z)].

Definition is_wiped (self : t) : bool := false.

Definition get_directory_contents (self : t) (start_offset : Z) (inode_number : option Z)
  : list DirectoryEntry.t :=
  [ {| DirectoryEntry.name := "demo_file.txt";
       DirectoryEntry.is_directory := false;
       DirectoryEntry.inode_number := 12345;
       DirectoryEntry.size := "1.2 KB";
       DirectoryEntry.accessed := "2024-01-01 12:00:00 UTC";
       DirectoryEntry.modified := "2024-01-01 12:00:00 UTC";
       DirectoryEntry.created := "2024-01-01 12:00:00 UTC";
       DirectoryEntry.changed := "2024-01-01 12:00:00 UTC" |};
    {| DirectoryEntry.name := "demo_folder";
       DirectoryEntry.is_directory := true;
       DirectoryEntry.inode_number := 12346;
       DirectoryEntry.size := "0 B";
       DirectoryEntry.accessed := "2024-01-01 12:00:00 UTC";
       DirectoryEntry.modified := "2024-01-01 12:00:00 UTC";
       DirectoryEntry.created := "2024-01-01 12:00:00 UTC";
       DirectoryEntry.changed := "2024-01-01 12:00:00 UTC" |} ].

Definition get_file_content (self : t) (inode_number offset : Z)
  : option (list byte) * metadata :=
  (Some (list_byte_of_string "This is a demo file content for testing purposes."), None).

Definition detect_file_type (self : t) (content : list byte) : FileType.t :=
  {| FileType.type := "text"; FileType.extension := "txt";
     FileType.description := "Text File" |}.

Definition carve_files_by_type (self : t) (file_type : json) : list CarvedFile.t :=
  [ {| CarvedFile.name := "demo_carved_file.txt";
       CarvedFile.path := "/demo_carved_file.txt";
       CarvedFile.size := "512 B";
       CarvedFile.inode := 12347;
       CarvedFile.type := "text";
       CarvedFile.extension := "txt";
       CarvedFile.description := "Text File";
       CarvedFile.accessed := "2024-01-01 12:00:00 UTC";
       CarvedFile.modified := "2024-01-01 12:00:00 UTC";
       CarvedFile.created := "2024-01-01 12:00:00 UTC";
       CarvedFile.changed := "2024-01-01 12:00:00 UTC" |} ].

Definition search_files (self : t) (query : string) : list SearchResult.t :=
  [ {| SearchResult.name := "demo_search_" +:+ query +:+ ".txt";
       SearchResult.path := "/demo_search_" +:+ query +:+ ".txt";
       SearchResult.size := "256 B";
       SearchResult.accessed := "2024-01-01 12:00:00 UTC";
       SearchResult.modified := "2024-01-01 12:00:00 UTC";
       SearchResult.created := "2024-01-01 12:00:00 UTC";
       SearchResult.changed := "2024-01-01 12:00:00 UTC";
       SearchResult.inode_item := "12348" |} ].

End DemoImageHandler.

(** *** class ImageHandler, of managers/evidence_utils

    The class is imported, not defined here: an instance is the methods it
    answers to, each of which may raise. *)

Module ImageHandler.
Record t := mk {
  get_partitions : py_result (list partition);
  is_wiped : py_result bool;
  get_directory_contents : Z -> option Z -> py_result (list DirectoryEntry.t);
  get_file_content : Z -> Z -> py_result (option (list byte) * metadata);
  detect_file_type : list byte -> py_result FileType.t;
  carve_files_by_type : json -> py_result (list CarvedFile.t);
  search_files : string -> py_result (list SearchResult.t)
}.
End ImageHandler.

(** What the session table holds: an object of either class.  Neither
    defines [__bool__] or [__len__], so every handler is truthy. *)
Inductive handler :=
| Real (h : ImageHandler.t)
| Demo (d : DemoImageHandler.t).

(** Method calls on a handler, dispatched on its class. *)
Definition get_partitions (h : handler) : py_result (list partition) :=
  match h with
  | Real r => ImageHandler.get_partitions r
  | Demo d => Return (DemoImageHandler.get_partitions d)
  end.

Definition is_wiped (h : handler) : py_result bool :=
  match h with
  | Real r => ImageHandler.is_wiped r
  | Demo d => Return (DemoImageHandler.is_wiped d)
  end.

Definition get_directory_contents (h : handler) (start_offset : Z) (inode : option Z)
  : py_result (list DirectoryEntry.t) :=
  match h with
  | Real r => ImageHandler.get_directory_contents r start_offset inode
  | Demo d => Return (DemoImageHandler.get_directory_contents d start_offset inode)
  end.

Definition get_file_content (h : handler) (inode offset : Z)
  : py_result (option (list byte) * metadata) :=
  match h with
  | Real r => ImageHandler.get_file_content r inode offset
  | Demo d => Return (DemoImageHandler.get_file_content d inode offset)
  end.

Definition detect_file_type (h : handler) (content : list byte) : py_result FileType.t :=
  match h with
  | Real r => ImageHandler.detect_file_type r content
  | Demo d => Return (DemoImageHandler.detect_file_type d content)
  end.

Definition carve_files_by_type (h : handler) (file_type : json)
  : py_result (list CarvedFile.t) :=
  match h with
  | Real r => ImageHandler.carve_files_by_type r file_type
  | Demo d => Return (DemoImageHandler.carve_files_by_type d file_type)
  end.

Definition search_files (h : handler) (query : string) : py_result (list SearchResult.t) :=
  match h with
  | Real r => ImageHandler.search_files r query
  | Demo d => Return (DemoImageHandler.search_files d query)
  end.

(** *** The upload filter *)

Definition ALLOWED_EXTENSIONS : gset string :=
  list_to_set
    [".e01"; ".E01"; ".s01"; ".S01"; ".l01"; ".L01"; ".raw"; ".RAW";
     ".img"; ".IMG"; ".dd"; ".DD"; ".iso"; ".ISO"; ".ad1"; ".AD1";
     ".001"; ".ex01"; ".dmg"; ".sparse"; ".sparseimage"].

Definition allowed_file (filename : string) : bool :=
  let '(_, ext) := splitext filename in
  bool_decide (ext ∈ ALLOWED_EXTENSIONS).

(** *** Flask: requests, responses, and the state of the application *)

(** The part of [flask.request] the handlers read.  [args] is the query
    string, first value of each key; [files_image] is the file name of the
    ["image"] part of the form when there is one; [json] is what evaluating
    [request.json] gives, which raises when the body is not JSON. *)
Record request := mkRequest {
  args : gmap string string;
  files_image : option string;
  json_body : py_result json
}.

Inductive endpoint :=
| index_page
| browse_page (token : string).

Inductive response :=
| jsonify_error (error : string) (status : Z)
| jsonify_entries (entries : list DirectoryEntry.t)
| jsonify_files (files : list CarvedFile.t)
| send_file (content : list byte) (download_name : string)
| redirect (target : endpoint)
| render_index
| render_browse (token : string) (partitions : list partition) (wiped : bool)
| render_view_file (token : string) (inode : Z) (content : list N)
    (is_text : bool) (file_size : nat)
| render_carve (token : string) (carved_files : list CarvedFile.t) (file_type : string)
| render_preview (token : string) (inode : Z) (content : list byte)
    (file_info : FileType.t) (file_size : nat)
| render_search (token : option string) (results : list SearchResult.t) (query : string).

(** The failure every query service reports for a token that does not
    resolve: [jsonify({'error': 'invalid token'}), 400]. *)
Definition InvalidToken : response := jsonify_error "invalid token" 400.

(** [image_handlers] is the table closed over by the handlers of
    [create_app]; [flashed] collects the messages passed to [flash],
    oldest first. *)
Record app_state := mkState {
  image_handlers : gmap string handler;
  flashed : list string
}.

(** A handler body: it reads and updates the state, and returns or raises. *)
Definition M (A : Type) : Type := app_state -> py_result A * app_state.

Definition ret {A} (a : A) : M A := fun st => (Return a, st).

Definition raise {A} (e : exn) : M A := fun st => (Raise e, st).

Definition bind {A B} (m : M A) (k : A -> M B) : M B :=
  fun st =>
    match m st with
    | (Return a, st') => k a st'
    | (Raise e, st') => (Raise e, st')
    end.

Notation "'let*' x ':=' m 'in' k" := (bind m (fun x => k))
  (at level 10, x name, m at level 100, k at level 200).
Notation "'let*' ' pat ':=' m 'in' k" := (bind m (fun x => let 'pat := x in k))
  (at level 10, pat strict pattern, m at level 100, k at level 200).
Notation "m ';;' k" := (bind m (fun _ => k))
  (at level 100, k at level 200, right associativity).

Definition lift {A} (r : py_result A) : M A := fun st => (r, st).

Definition flash (msg : string) : M unit :=
  fun st => (Return tt,
             {| image_handlers := image_handlers st; flashed := flashed st ++ [msg] |}).

(** [image_handlers.get(token)] for a token read from the query string or
    from the URL: a [str], or [None] when the parameter is absent. *)
Definition handlers_get (token : option string) : M (option handler) :=
  fun st =>
    (Return match token with
            | Some t => image_handlers st !! t
            | None => None
            end, st).

(** [image_handlers.get(token)] for a token read from a JSON body: lists
    and dicts are unhashable; the keys of the table are all [str]. *)
Definition handlers_get_json (token : json) : M (option handler) :=
  match token with
  | JStr t => handlers_get (Some t)
  | JList _ => raise (mkExn TypeError "unhashable type: 'list'")
  | JDict _ => raise (mkExn TypeError "unhashable type: 'dict'")
  | _ => ret None
  end.

(** [image_handlers[token] = h] *)
Definition handlers_set (token : string) (h : handler) : M unit :=
  fun st => (Return tt,
             {| image_handlers := <[token := h]> (image_handlers st);
                flashed := flashed st |}).

(** [request.args.get(key)] and [request.args.get(key, default)] *)
Definition args_get (req : request) (key : string) : option string :=
  args req !! key.

Definition args_get_default (req : request) (key dflt : string) : string :=
  match args req !! key with
  | Some v => v
  | None => dflt
  end.

(** *** The routes of [create_app] *)

Definition index : M response := ret render_index.

Section Deployment.

(** What the installation supplies: the upload directory (it depends on
    where the package lives), werkzeug's [secure_filename], the outcome of
    [file.save(path)], and the constructor of the imported [ImageHandler]. *)
Variable UPLOAD_FOLDER : string.
Variable secure_filename : string -> string.
Variable file_save : string -> py_result unit.
Variable ImageHandler__init__ : string -> py_result ImageHandler.t.

(** The [try] statement of [upload]: opens a session on a stored image. *)
Definition open_session (saved_path : string) : M response :=
  match ImageHandler__init__ saved_path with
  | Return handler =>
      let token := basename saved_path in
      handlers_set token (Real handler) ;;
      ret (redirect (browse_page token))
  | Raise e =>
      if is_ImportError e then
        flash ("Forensic libraries not installed. Running in demo mode. Error: "
               +:+ exn_str e) ;;
        let demo_handler := DemoImageHandler.__init__ saved_path in
        let token := basename saved_path in
        handlers_set token (Demo demo_handler) ;;
        ret (redirect (browse_page token))
      else if is_Exception e then
        flash ("Error processing image: " +:+ exn_str e) ;;
        ret (redirect index_page)
      else raise e
  end.

Definition upload (req : request) : M response :=
  match files_image req with
  | None =>
      flash "No file part" ;; ret (redirect index_page)
  | Some file_filename =>
      if String.eqb file_filename "" then
        flash "No selected file" ;; ret (redirect index_page)
      else if negb (allowed_file file_filename) then
        flash "Unsupported file type" ;; ret (redirect index_page)
      else
        let filename := secure_filename file_filename in
        let saved_path := join UPLOAD_FOLDER filename in
        lift (file_save saved_path) ;;
        open_session saved_path
  end.

End Deployment.

Definition browse (token : string) : M response :=
  let* handler := handlers_get (Some token) in
  match handler with
  | None =>
      flash "Session expired. Re-upload the image." ;; ret (redirect index_page)
  | Some handler =>
      let* partitions := lift (get_partitions handler) in
      let* wiped := lift (is_wiped handler) in
      ret (render_browse token partitions wiped)
  end.

Definition api_list (req : request) : M response :=
  let token := args_get req "token" in
  let* start_offset := lift (int (Some (args_get_default req "start_offset" "0"))) in
  let inode := args_get req "inode" in
  let* inode_num :=
    match inode with
    | Some _ => let* n := lift (int inode) in ret (Some n)
    | None => ret None
    end in
  let* handler := handlers_get token in
  match handler with
  | None => ret InvalidToken
  | Some handler =>
      let* entries := lift (get_directory_contents handler start_offset inode_num) in
      ret (jsonify_entries entries)
  end.

Definition api_file (req : request) : M response :=
  let token := args_get req "token" in
  let* inode := lift (int (args_get req "inode")) in
  let* start_offset := lift (int (Some (args_get_default req "start_offset" "0"))) in
  let* handler := handlers_get token in
  match handler with
  | None => ret InvalidToken
  | Some handler =>
      let* '(content, meta) := lift (get_file_content handler inode start_offset) in
      match content with
      | None => ret (jsonify_error "not found" 404)
      | Some content =>
          ret (send_file content ("inode_" +:+ str_of_int inode +:+ ".bin"))
      end
  end.

(** The [try] statement of [view_file]: text when the whole content is
    well-formed UTF-8, else the first 1000 bytes in hexadecimal. *)
Definition classify (content : list byte) : list N * bool :=
  match Utf8.decode content with
  | Some text_content => (text_content, true)
  | None => (code_points (hex (take 1000 content)), false)
  end.

(** The URL converter [<int:inode>] hands [inode] over as an [int]. *)
Definition view_file (token : string) (inode : Z) (req : request) : M response :=
  let* start_offset := lift (int (Some (args_get_default req "start_offset" "0"))) in
  let* handler := handlers_get (Some token) in
  match handler with
  | None =>
      flash "Session expired. Re-upload the image." ;; ret (redirect index_page)
  | Some handler =>
      let* '(content, meta) := lift (get_file_content handler inode start_offset) in
      match content with
      | None =>
          flash "File not found or could not be read." ;;
          ret (redirect (browse_page token))
      | Some content =>
          let '(text_content, is_text) := classify content in
          ret (render_view_file token inode text_content is_text (length content))
      end
  end.

Definition carve_files (token : string) (req : request) : M response :=
  let* handler := handlers_get (Some token) in
  match handler with
  | None =>
      flash "Session expired. Re-upload the image." ;; ret (redirect index_page)
  | Some handler =>
      let file_type := args_get_default req "type" "all" in
      let* carved_files := lift (carve_files_by_type handler (JStr file_type)) in
      ret (render_carve token carved_files file_type)
  end.

(** [request.json.get(key, default)]: only a dict has [get]. *)
Definition json_get (body : json) (key : string) (default : json) : py_result json :=
  match body with
  | JDict items => Return (dict_get key items default)
  | _ => Raise (mkExn AttributeError "object has no attribute 'get'")
  end.

Definition api_carve (req : request) : M response :=
  let* body := lift (json_body req) in
  let* token := lift (json_get body "token" JNull) in
  let* body' := lift (json_body req) in
  let* file_type := lift (json_get body' "type" (JStr "all")) in
  let* handler := handlers_get_json token in
  match handler with
  | None => ret InvalidToken
  | Some handler =>
      let* carved_files := lift (carve_files_by_type handler file_type) in
      ret (jsonify_files carved_files)
  end.

Definition preview_file (token : string) (inode : Z) (req : request) : M response :=
  let* start_offset := lift (int (Some (args_get_default req "start_offset" "0"))) in
  let* handler := handlers_get (Some token) in
  match handler with
  | None =>
      flash "Session expired. Re-upload the image." ;; ret (redirect index_page)
  | Some handler =>
      let* '(content, meta) := lift (get_file_content handler inode start_offset) in
      match content with
      | None =>
          flash "File not found or could not be read." ;;
          ret (redirect (browse_page token))
      | Some content =>
          let* file_info := lift (detect_file_type handler content) in
          ret (render_preview token inode content file_info (length content))
      end
  end.

Definition search (req : request) : M response :=
  let token := args_get req "token" in
  let query := args_get_default req "q" "" in
  let* handler := handlers_get token in
  match handler with
  | None => ret InvalidToken
  | Some handler =>
      let* results := lift (search_files handler query) in
      ret (render_search token results query)
  end.

(** The state of a freshly created application. *)
Definition new_app : app_state :=
  {| image_handlers := ∅; flashed := [] |}.

End WebApp.
(** ** The upload filter as the specification words it *)

Module UploadSpec.

Definition lower_char (c : ascii) : ascii :=
  let k := nat_of_ascii c in
  if ((65 <=? k) && (k <=? 90))%nat then ascii_of_nat (k + 32) else c.

(** [str.lower] on ASCII letters. *)
Fixpoint lower (s : string) : string :=
  match s with
  | EmptyString => EmptyString
  | String c s' => String (lower_char c) (lower s')
  end.

(** The extensions the specification lists. *)
Definition listed_extensions : gset string :=
  list_to_set
    [".e01"; ".s01"; ".l01"; ".raw"; ".img"; ".dd"; ".iso"; ".ad1";
     ".001"; ".ex01"; ".dmg"; ".sparse"; ".sparseimage"].

(** A file name is accepted when its extension, compared without regard
    to case, is one of the listed ones. *)
Definition accepts (filename : string) : bool :=
  bool_decide (lower (snd (Py.splitext filename)) ∈ listed_extensions).

End UploadSpec.

(** ** Requests that carry an unknown token *)

Module Unknown.
Import Py WebApp.

(** A token read from the query string that the table does not hold; an
    absent parameter reads as [None], which is no key either. *)
Definition token (st : app_state) (t : option string) : Prop :=
  match t with
  | Some t => image_handlers st !! t = None
  | None => True
  end.

(** A hashable JSON value that the table does not hold. *)
Definition json_token (st : app_state) (t : json) : Prop :=
  match t with
  | JStr t => image_handlers st !! t = None
  | JList _ | JDict _ => False
  | _ => True
  end.

(** [int(x)] returns. *)
Definition is_int (x : option string) : Prop := ∃ z, int x = Return z.

End Unknown.

(** ** Shapes of requests, names and content *)

Module Shape.
Import Py WebApp.

(** The three ways [upload] turns a request down before saving anything:
    no ["image"] part, an empty file name, an extension not allowed. *)
Definition rejected (req : request) : bool :=
  match files_image req with
  | None => true
  | Some file_filename =>
      String.eqb file_filename "" || negb (allowed_file file_filename)
  end.

(** The state after one more message has been flashed. *)
Definition flashing (msg : string) (st : app_state) : app_state :=
  {| image_handlers := image_handlers st; flashed := flashed st ++ [msg] |}.

(** [c in s] *)
Fixpoint contains (c : ascii) (s : string) : bool :=
  match s with
  | EmptyString => false
  | String a s' => Ascii.eqb a c || contains c s'
  end.

(** Bytes that occur in no well-formed UTF-8 sequence. *)
Definition never_valid (b : byte) : bool :=
  let n := Byte.to_N b in
  ((n =? 0xC0) || (n =? 0xC1) || (0xF5 <=? n))%N.

End Shape.

(** * Properties *)

(** ** Formatting of identifiers *)

Section Formatting.
Import PyFormat.

Lemma string_of_uint_digits (d : Decimal.uint) :
  all_digits (NilEmpty.string_of_uint d) = true.
Proof. induction d; simpl; auto. Qed.

Lemma all_digits_app (s1 s2 : string) :
  all_digits (s1 +:+ s2) = all_digits s1 && all_digits s2.
Proof.
  induction s1 as [|c s1 IH]; simpl; [reflexivity|].
  rewrite IH. apply andb_assoc.
Qed.

Lemma zeros_digits (k : nat) : all_digits (zeros k) = true.
Proof. induction k; simpl; auto. Qed.

Lemma zeros_length (k : nat) : String.length (zeros k) = k.
Proof. induction k; simpl; auto. Qed.

Lemma length_str_app (s1 s2 : string) :
  String.length (s1 +:+ s2) = String.length s1 + String.length s2.
Proof. induction s1 as [|c s1 IH]; simpl; [reflexivity | by rewrite IH]. Qed.

Lemma zero_pad_digits (w n : nat) : all_digits (zero_pad w n) = true.
Proof.
  unfold zero_pad, decimal.
  by rewrite all_digits_app, zeros_digits, string_of_uint_digits.
Qed.

Lemma zero_pad_length (w n : nat) : w <= String.length (zero_pad w n).
Proof.
  unfold zero_pad. rewrite length_str_app, zeros_length. lia.
Qed.

(** Leading zeros do not change the number read. *)
Lemma read_decimal_zeros (k : nat) (s : string) :
  read_decimal (zeros k +:+ s) = read_decimal s.
Proof.
  unfold read_decimal.
  induction k as [|k IH]; simpl; [reflexivity|].
  destruct (NilEmpty.uint_of_string (zeros k +:+ s)) as [d|] eqn:E1;
    destruct (NilEmpty.uint_of_string s) as [d'|] eqn:E2;
    simpl in *; try congruence.
  injection IH as IH. rewrite <- IH. reflexivity.
Qed.

(** Reading back a padded number gives the number. *)
Lemma read_zero_pad (w n : nat) : read_decimal (zero_pad w n) = Some n.
Proof.
  unfold zero_pad. rewrite read_decimal_zeros.
  unfold read_decimal, decimal.
  by rewrite NilEmpty.usu; simpl; rewrite DecimalNat.Unsigned.of_to.
Qed.

End Formatting.

(** ** The evidence registry *)

Section Registry.
Import Evidence.

Lemma eid_counter_eid_of (n : nat) : eid_counter (eid_of n) = Some n.
Proof. unfold eid_of; simpl. apply read_zero_pad. Qed.

#[local] Instance eid_of_inj : Inj (=) (=) eid_of.
Proof.
  intros n m H. apply (f_equal eid_counter) in H.
  rewrite !eid_counter_eid_of in H. congruence.
Qed.

Lemma eid_of_matches (n : nat) : matches_E_d3 (eid_of n) = true.
Proof.
  change ((3 <=? String.length (PyFormat.zero_pad 3 n))%nat
          && PyFormat.all_digits (PyFormat.zero_pad 3 n) = true).
  rewrite zero_pad_digits, andb_true_r.
  apply Nat.leb_le, zero_pad_length.
Qed.

Lemma close_evidence_next_id (eid : string) (st : registry) :
  _next_id (snd (close_evidence eid st)) = _next_id st.
Proof. unfold close_evidence. by destruct (_ !! _). Qed.

(** What a run hands out and where it leaves the counter: the identifiers
    of consecutive counter values, starting from the current one. *)
Lemma run_issued (cs : list call) (st : registry) :
  issued (fst (run cs st)) = eid_of <$> seq (_next_id st) (registrations cs)
  ∧ _next_id (snd (run cs st)) = _next_id st + registrations cs.
Proof.
  revert st. induction cs as [|c cs IH]; intros st; simpl.
  - split; [reflexivity | lia].
  - destruct c as [p|eid|eid]; simpl.
    + specialize (IH (snd (add_evidence p st))).
      destruct (run cs _) as [answers st2] eqn:E; simpl in *.
      destruct IH as [-> ->]. split; [reflexivity | lia].
    + specialize (IH st).
      destruct (run cs st) as [answers st2] eqn:E; simpl in *. done.
    + pose proof (close_evidence_next_id eid st) as Hn.
      specialize (IH (snd (close_evidence eid st))).
      destruct (close_evidence eid st) as [b st1]; simpl in *.
      destruct (run cs st1) as [answers st2] eqn:E; simpl in *.
      by rewrite Hn in IH.
Qed.

Lemma close_evidence_lookup (eid eid' : string) (st : registry) :
  resolve_evidence eid' (snd (close_evidence eid st))
  = if decide (eid' = eid)
    then (λ r, {| path := path r; open := false |}) <$> resolve_evidence eid st
    else resolve_evidence eid' st.
Proof.
  unfold close_evidence, resolve_evidence.
  destruct (_evidence_db st !! eid) as [r|] eqn:E; simpl.
  - case_decide as Hd.
    + subst. by rewrite lookup_insert_eq.
    + by rewrite lookup_insert_ne.
  - case_decide as Hd; [by subst; rewrite E | done].
Qed.

(** C4: for every path [p] and every registry state, looking up the
    identifier [add_evidence p] returns, right after the call, gives the
    record with [open = True] and [path = p]; and after any sequence of
    calls from the initial state, the identifier it returns is none of those
    the earlier registrations returned. *)
Theorem add_evidence_fresh_and_resolves :
  (∀ (p : string) (st : registry),
      resolve_evidence (fst (add_evidence p st)) (snd (add_evidence p st))
      = Some {| path := p; open := true |})
  ∧ (∀ (cs : list call) (p : string),
      fst (add_evidence p (snd (run cs initial))) ∉ issued (fst (run cs initial))).
Proof.
  split.
  - intros p st. unfold resolve_evidence, add_evidence; simpl.
    apply lookup_insert_eq.
  - intros cs p. destruct (run_issued cs initial) as [Hi Hn].
    rewrite Hi. unfold add_evidence; simpl. rewrite Hn; simpl.
    intros Hin. apply list_elem_of_fmap in Hin as (k & Hk & Hin).
    apply (inj eid_of) in Hk. subst k.
    apply elem_of_seq in Hin. lia.
Qed.

Lemma initial_well_numbered : well_numbered initial.
Proof. intros eid [r Hr]. simpl in Hr. by rewrite lookup_empty in Hr. Qed.

Lemma step_well_numbered (c : call) (st : registry) :
  well_numbered st → well_numbered (snd (step c st)).
Proof.
  intros Hwn. destruct c as [p|eid|eid]; simpl; [| exact Hwn |].
  - intros eid' Hsome. simpl in *.
    destruct (decide (eid' = eid_of (_next_id st))) as [->|Hne].
    + exists (_next_id st). split; [lia | reflexivity].
    + rewrite lookup_insert_ne in Hsome by done.
      destruct (Hwn eid' Hsome) as (k & Hk & ->). exists k. split; [lia | done].
  - intros eid' Hsome.
    assert (is_Some (resolve_evidence eid' (snd (close_evidence eid st)))) as Hs.
    { destruct (close_evidence eid st); exact Hsome. }
    rewrite close_evidence_lookup in Hs.
    assert (is_Some (_evidence_db st !! eid')) as Hold.
    { case_decide as Hd; [subst | exact Hs].
      unfold resolve_evidence in Hs. by destruct (_evidence_db st !! eid). }
    destruct (Hwn eid' Hold) as (k & Hk & ->). exists k.
    rewrite surjective_pairing with (p := close_evidence eid st); simpl.
    by rewrite close_evidence_next_id.
Qed.

(** A registration never lands on an identifier already in the table, so
    a record, once made, keeps its path through every later call. *)
Lemma registered_path_is_stable (cs : list call) (st : registry) :
  well_numbered st →
  ∀ eid r, resolve_evidence eid st = Some r →
    ∃ r', resolve_evidence eid (snd (run cs st)) = Some r' ∧ path r' = path r.
Proof.
  revert st. induction cs as [|c cs IH]; intros st Hwn eid r Hr; simpl.
  - eauto.
  - pose proof (step_well_numbered c st Hwn) as Hwn1.
    assert (∃ r1, resolve_evidence eid (snd (step c st)) = Some r1
                  ∧ path r1 = path r) as (r1 & Hr1 & Hp1).
    { destruct c as [p|eid0|eid0]; simpl.
      - destruct (Hwn eid (ex_intro _ r Hr)) as (k & Hk & ->).
        exists r. split; [|done]. unfold resolve_evidence; simpl.
        rewrite lookup_insert_ne; [done|].
        intros Heq. apply (inj eid_of) in Heq. lia.
      - eauto.
      - rewrite surjective_pairing with (p := close_evidence eid0 st); simpl.
        rewrite close_evidence_lookup. case_decide as Hd; [subst|eauto].
        rewrite Hr. simpl. eauto. }
    destruct (step c st) as [a st1]; simpl in *.
    destruct (IH st1 Hwn1 eid r1 Hr1) as (r' & Hr' & Hp').
    destruct (run cs st1) as [answers st2]; simpl in *.
    exists r'. split; [done | congruence].
Qed.

(** C5: [close_evidence] on an identifier the registry knows returns
    [True], and the record it then resolves to has [open = False]; on an
    unknown identifier it returns [False] and the registry is left as it
    was; on a record that is already closed it returns [True] and the
    registry is left as it was. *)
Theorem close_evidence_result (eid : string) (st : registry) :
  (is_Some (resolve_evidence eid st) →
     fst (close_evidence eid st) = true
     ∧ ∃ r, resolve_evidence eid (snd (close_evidence eid st)) = Some r
            ∧ open r = false)
  ∧ (resolve_evidence eid st = None → close_evidence eid st = (false, st))
  ∧ (∀ r, resolve_evidence eid st = Some r → open r = false →
          close_evidence eid st = (true, st)).
Proof.
  split; [|split].
  - intros [r Hr]. split.
    + unfold close_evidence, resolve_evidence in *. by rewrite Hr.
    + rewrite close_evidence_lookup, decide_True, Hr by done. simpl. eauto.
  - unfold close_evidence, resolve_evidence. by intros ->.
  - intros r Hr Hclosed. unfold close_evidence, resolve_evidence in *.
    rewrite Hr. destruct st as [db n], r as [p o]; simpl in *. subst o.
    by rewrite insert_id.
Qed.

Lemma close_evidence_result_witness :
  let st1 := snd (add_evidence "/tmp/a.dd" initial) in
  let st2 := snd (close_evidence "E001" st1) in
  (fst (close_evidence "E001" st1) = true
   ∧ ∃ r, resolve_evidence "E001" st2 = Some r ∧ open r = false)
  ∧ close_evidence "E002" st1 = (false, st1)
  ∧ close_evidence "E001" st2 = (true, st2).
Proof.
  intros st1 st2. split; [|split].
  - apply (proj1 (close_evidence_result "E001" st1)).
    exists {| path := "/tmp/a.dd"; open := true |}. vm_compute. reflexivity.
  - apply (proj1 (proj2 (close_evidence_result "E002" st1))).
    vm_compute. reflexivity.
  - apply (proj2 (proj2 (close_evidence_result "E001" st2))
             {| path := "/tmp/a.dd"; open := false |}).
    + vm_compute. reflexivity.
    + reflexivity.
Defined.

(** C6: the identifiers a process hands out, in order, are the letter [E]
    followed by the counter values 1, 2, 3, ... in decimal, zero-padded to
    three digits; each matches [E\d{3,}]; no two are equal, whatever calls
    to [close_evidence] and [resolve_evidence] come in between. *)
Theorem issued_identifiers (cs : list call) :
  let ids := issued (fst (run cs initial)) in
  ids = (λ k, String "E" (PyFormat.zero_pad 3 k)) <$> seq 1 (registrations cs)
  ∧ Forall (λ eid, matches_E_d3 eid = true) ids
  ∧ NoDup ids.
Proof.
  destruct (run_issued cs initial) as [Hi _]. simpl in Hi |- *.
  rewrite Hi. split; [reflexivity | split].
  - apply Forall_fmap, Forall_forall. intros k _. apply eid_of_matches.
  - apply (NoDup_fmap_2 eid_of), NoDup_seq.
Qed.

(** C9: [close_evidence eid] leaves the counter alone, leaves the [path] of
    every record as it was (and adds or removes no record), and leaves
    every record other than that of [eid] exactly as it was. *)
Theorem close_evidence_frame (eid eid' : string) (st : registry) :
  let st' := snd (close_evidence eid st) in
  _next_id st' = _next_id st
  ∧ path <$> resolve_evidence eid' st' = path <$> resolve_evidence eid' st
  ∧ (eid' ≠ eid → resolve_evidence eid' st' = resolve_evidence eid' st).
Proof.
  simpl. split; [apply close_evidence_next_id | split].
  - rewrite close_evidence_lookup. case_decide as Hd; [subst | done].
    by destruct (resolve_evidence eid st).
  - intros Hne. by rewrite close_evidence_lookup, decide_False.
Qed.

Lemma close_evidence_frame_witness :
  let st := snd (add_evidence "/b.img" (snd (add_evidence "/a.img" initial))) in
  "E002" ≠ "E001"
  ∧ resolve_evidence "E002" (snd (close_evidence "E001" st))
    = Some {| path := "/b.img"; open := true |}.
Proof.
  intros st.
  assert ("E002" ≠ "E001") as Hne by (intros H; discriminate H).
  split; [exact Hne|].
  rewrite (proj2 (proj2 (close_evidence_frame "E001" "E002" st)) Hne).
  vm_compute. reflexivity.
Defined.

End Registry.

(** ** The upload filter *)

Section UploadFilter.
Import Py WebApp.

(** C7: [allowed_file] tells upper case from lower case.  It takes [.dmg]
    and refuses [.DMG], which the case-insensitive reading accepts, though
    it takes both [.raw] and [.RAW]; a mixed-case [.Raw] is refused too. *)
Theorem allowed_file_is_case_sensitive :
  allowed_file "evidence.dmg" = true
  ∧ allowed_file "evidence.DMG" = false
  ∧ UploadSpec.accepts "evidence.DMG" = true
  ∧ allowed_file "evidence.raw" = true
  ∧ allowed_file "evidence.RAW" = true
  ∧ allowed_file "evidence.Raw" = false
  ∧ UploadSpec.accepts "evidence.Raw" = true.
Proof. repeat split; vm_compute; reflexivity. Qed.

End UploadFilter.

(** ** The synthetic backend *)

Section DemoBackend.
Import Py WebApp.

(** C10: whatever the query, [DemoImageHandler.search_files] returns one
    result, named ["demo_search_" + query + ".txt"], whose [inode_item] is
    ["12348"]; the empty query gives the one result ["demo_search_.txt"]. *)
Theorem demo_search_files (self : DemoImageHandler.t) (query : string) :
  (∃ r, DemoImageHandler.search_files self query = [r]
        ∧ SearchResult.name r = "demo_search_" +:+ query +:+ ".txt"
        ∧ SearchResult.inode_item r = "12348")
  ∧ length (DemoImageHandler.search_files self query) = 1
  ∧ SearchResult.name <$> DemoImageHandler.search_files self ""
    = ["demo_search_.txt"].
Proof.
  split; [|split; reflexivity].
  eexists. split; [reflexivity|]. split; reflexivity.
Qed.

End DemoBackend.

(** ** Hexadecimal display *)

Section HexDisplay.
Import Py.

Lemma hex_length (bs : list byte) : String.length (hex bs) = 2 * length bs.
Proof. induction bs as [|b bs IH]; simpl; [reflexivity | rewrite IH; lia]. Qed.

Lemma code_points_length (s : string) : length (code_points s) = String.length s.
Proof.
  unfold code_points. rewrite length_map.
  induction s as [|c s IH]; simpl; [reflexivity | by rewrite IH].
Qed.

End HexDisplay.

(** ** The request handlers *)

Section Handlers.
Import Py WebApp.

(** C3: when the token resolves and the handler returns content,
    [view_file] renders it as text, with the decoded string, exactly when
    the whole content is well-formed UTF-8; otherwise it renders it as not
    text, with the hexadecimal digits of the first 1000 bytes, or of all
    the bytes when there are fewer than 1000. *)
Theorem view_file_classification
    (st : app_state) (token : string) (inode : Z) (req : request)
    (h : handler) (start_offset : Z) (content : list byte) (meta : metadata) :
  int (Some (args_get_default req "start_offset" "0")) = Return start_offset →
  image_handlers st !! token = Some h →
  get_file_content h inode start_offset = Return (Some content, meta) →
  ∃ (shown : list N) (is_text : bool),
    view_file token inode req st
    = (Return (render_view_file token inode shown is_text (length content)), st)
    ∧ match Utf8.decode content with
      | Some text => is_text = true ∧ shown = text
      | None =>
          is_text = false
          ∧ shown = code_points (hex (take 1000 content))
          ∧ take 1000 content `prefix_of` content
          ∧ length (take 1000 content) = 1000 `min` length content
          ∧ (length content < 1000 → take 1000 content = content)
          ∧ length shown = 2 * (1000 `min` length content)
      end.
Proof.
  intros Hint Hh Hc.
  unfold view_file, bind, lift, handlers_get, ret. rewrite Hint, Hh, Hc.
  unfold classify.
  destruct (Utf8.decode content) as [text|] eqn:Hd.
  - by exists text, true.
  - eexists _, false. split; [reflexivity|].
    repeat split.
    + apply prefix_take.
    + apply length_take.
    + intros Hlt. apply take_ge. lia.
    + by rewrite code_points_length, hex_length, length_take.
Qed.

Lemma view_file_classification_witness :
  let h :=
    Real {| ImageHandler.get_partitions := Return [];
            ImageHandler.is_wiped := Return false;
            ImageHandler.get_directory_contents := λ _ _, Return [];
            ImageHandler.get_file_content := λ _ _, Return (Some [xff; xfe; x41], None);
            ImageHandler.detect_file_type :=
              λ _, Return (FileType.mk "data" "bin" "Binary");
            ImageHandler.carve_files_by_type := λ _, Return [];
            ImageHandler.search_files := λ _, Return [] |} in
  let st := {| image_handlers := {["disk.dd" := h]}; flashed := [] |} in
  let req := {| args := ∅; files_image := None; json_body := Return JNull |} in
  view_file "disk.dd" 7 req st
  = (Return (render_view_file "disk.dd" 7 (code_points "fffe41") false 3), st).
Proof.
  intros h st req.
  destruct (view_file_classification st "disk.dd" 7 req h 0
              [xff; xfe; x41] None)
    as (shown & is_text & Heq & Hm).
  - vm_compute. reflexivity.
  - vm_compute. reflexivity.
  - reflexivity.
  - change (Utf8.decode [xff; xfe; x41]) with (@None (list N)) in Hm.
    destruct Hm as (-> & -> & _). exact Heq.
Defined.

(** C2: in [upload], once the file has passed the filter and been saved:
    when the [ImageHandler] constructor raises [ImportError], the caller
    is redirected to the browse page of the token, the token is the base
    name of the saved path and maps to a [DemoImageHandler] on that path,
    and the demo-mode warning is flashed; when it raises anything else,
    the session table is left as it was, and the caller is sent back to
    the index page with an error message or the exception propagates. *)
Theorem upload_backend_fallback
    (UPLOAD_FOLDER : string) (secure_filename : string → string)
    (file_save : string → py_result unit)
    (ImageHandler__init__ : string → py_result ImageHandler.t)
    (req : request) (st : app_state) (file_filename : string) (e : exn) :
  let saved_path := join UPLOAD_FOLDER (secure_filename file_filename) in
  let token := basename saved_path in
  let out := upload UPLOAD_FOLDER secure_filename file_save ImageHandler__init__ req st in
  files_image req = Some file_filename →
  file_filename ≠ "" →
  allowed_file file_filename = true →
  file_save saved_path = Return tt →
  ImageHandler__init__ saved_path = Raise e →
  if is_ImportError e then
    fst out = Return (redirect (browse_page token))
    ∧ image_handlers (snd out)
      = <[token := Demo (DemoImageHandler.__init__ saved_path)]> (image_handlers st)
    ∧ flashed (snd out)
      = (flashed st ++ ["Forensic libraries not installed. Running in demo mode. Error: "
                        +:+ exn_str e])%list
  else
    image_handlers (snd out) = image_handlers st
    ∧ fst out = (if is_Exception e then Return (redirect index_page) else Raise e)
    ∧ flashed (snd out)
      = (flashed st ++ (if is_Exception e
                        then ["Error processing image: " +:+ exn_str e] else []))%list.
Proof.
  intros saved_path token out Hfile Hname Hallowed Hsave Hinit.
  subst out. unfold upload. rewrite Hfile.
  apply String.eqb_neq in Hname. rewrite Hname, Hallowed. simpl.
  fold saved_path. unfold bind at 1, lift. rewrite Hsave.
  unfold open_session. rewrite Hinit. fold token.
  destruct (is_ImportError e) eqn:Himp.
  - done.
  - destruct (is_Exception e) eqn:Hexn.
    + done.
    + simpl. by rewrite app_nil_r.
Qed.

Lemma upload_backend_fallback_witness :
  let ctor := λ _ : string,
    @Raise ImageHandler.t (mkExn ImportError "No module named 'pytsk3'") in
  let req := {| args := ∅; files_image := Some "case7.E01";
                json_body := Return JNull |} in
  let out := upload "/srv/webapp/uploads" (λ s, s) (λ _, Return tt) ctor req new_app in
  fst out = Return (redirect (browse_page "case7.E01"))
  ∧ image_handlers (snd out) !! "case7.E01"
    = Some (Demo (DemoImageHandler.__init__ "/srv/webapp/uploads/case7.E01")).
Proof.
  intros ctor req out.
  pose proof (upload_backend_fallback "/srv/webapp/uploads" (λ s, s)
                (λ _, Return tt) ctor req new_app "case7.E01"
                (mkExn ImportError "No module named 'pytsk3'")) as H.
  simpl in H. destruct H as (Hres & Htab & _).
  - reflexivity.
  - intros Heq. discriminate Heq.
  - vm_compute. reflexivity.
  - reflexivity.
  - reflexivity.
  - split; [exact Hres|]. subst out. rewrite Htab. vm_compute. reflexivity.
Defined.

(** C8: from the initial registry, registering [/tmp/img1.raw] returns
    [E001]; opening a session on that path, the parsing backend missing,
    issues the token [img1.raw], the base name, bound to the demo handler;
    and listing offset 0 under that token returns entries among which is
    one named [demo_file.txt] that is not a directory. *)
Theorem scenario_img1
    (ImageHandler__init__ : string → py_result ImageHandler.t) (e : exn) :
  ImageHandler__init__ "/tmp/img1.raw" = Raise e →
  is_ImportError e = true →
  let opened := open_session ImageHandler__init__ "/tmp/img1.raw" new_app in
  let req := {| args := {[ "token" := "img1.raw"; "start_offset" := "0" ]};
                files_image := None; json_body := Return JNull |} in
  fst (Evidence.add_evidence "/tmp/img1.raw" Evidence.initial) = "E001"
  ∧ basename "/tmp/img1.raw" = "img1.raw"
  ∧ fst opened = Return (redirect (browse_page "img1.raw"))
  ∧ image_handlers (snd opened) !! "img1.raw"
    = Some (Demo (DemoImageHandler.__init__ "/tmp/img1.raw"))
  ∧ ∃ entries entry,
      api_list req (snd opened) = (Return (jsonify_entries entries), snd opened)
      ∧ entry ∈ entries
      ∧ DirectoryEntry.name entry = "demo_file.txt"
      ∧ DirectoryEntry.is_directory entry = false.
Proof.
  intros Hinit Himp opened req. subst opened.
  unfold open_session. rewrite Hinit, Himp.
  split; [reflexivity|]. split; [reflexivity|]. split; [reflexivity|].
  split; [vm_compute; reflexivity|].
  eexists _, _. split; [|split; [|split]].
  - vm_compute. reflexivity.
  - apply list_elem_of_here.
  - reflexivity.
  - reflexivity.
Qed.

Lemma scenario_img1_witness :
  let ctor := λ _ : string,
    @Raise ImageHandler.t (mkExn ImportError "No module named 'pyewf'") in
  image_handlers (snd (open_session ctor "/tmp/img1.raw" new_app)) !! "img1.raw"
  = Some (Demo (DemoImageHandler.__init__ "/tmp/img1.raw")).
Proof.
  intros ctor.
  apply (scenario_img1 ctor (mkExn ImportError "No module named 'pyewf'"));
    reflexivity.
Defined.

(** C1, as the code has it: for a token the session table does not hold,
    [search] answers [invalid token] whatever the query; [api_list] and
    [api_file] answer it when their numeric parameters are integers
    ([inode] present for [api_file]), and [api_carve] when the body is a
    JSON object whose token is hashable.  None of them changes the state. *)
Theorem unknown_token_is_invalid (st : app_state) (req : request) :
  (Unknown.token st (args_get req "token") →
     search req st = (Return InvalidToken, st))
  ∧ (Unknown.token st (args_get req "token") →
     Unknown.is_int (Some (args_get_default req "start_offset" "0")) →
     (∀ inode, args_get req "inode" = Some inode → Unknown.is_int (Some inode)) →
     api_list req st = (Return InvalidToken, st))
  ∧ (Unknown.token st (args_get req "token") →
     Unknown.is_int (args_get req "inode") →
     Unknown.is_int (Some (args_get_default req "start_offset" "0")) →
     api_file req st = (Return InvalidToken, st))
  ∧ (∀ items,
       json_body req = Return (JDict items) →
       Unknown.json_token st (dict_get "token" items JNull) →
       api_carve req st = (Return InvalidToken, st)).
Proof.
  assert (∀ t, Unknown.token st t → handlers_get t st = (Return None, st)) as Hget.
  { intros [t|] Ht; unfold handlers_get; simpl in *; [by rewrite Ht | done]. }
  repeat split.
  - intros Ht. unfold search, bind. by rewrite (Hget _ Ht).
  - intros Ht [off Hoff] Hinode.
    unfold api_list, bind, lift. rewrite Hoff.
    destruct (args_get req "inode") as [inode|] eqn:Hi.
    + destruct (Hinode inode eq_refl) as [n Hn]. rewrite Hn.
      unfold ret. cbv beta iota. by rewrite (Hget _ Ht).
    + unfold ret. cbv beta iota. by rewrite (Hget _ Ht).
  - intros Ht [n Hn] [off Hoff].
    unfold api_file, bind, lift. rewrite Hn, Hoff. by rewrite (Hget _ Ht).
  - intros items Hbody Htok.
    unfold api_carve, bind, lift. rewrite Hbody. simpl.
    destruct (dict_get "token" items JNull) as [| | |t| |] eqn:Hd;
      simpl in *; try done.
    unfold handlers_get. by rewrite Htok.
Qed.

Lemma unknown_token_is_invalid_witness :
  let req := {| args := {[ "token" := "gone.dd"; "start_offset" := " 2048 ";
                           "inode" := "12345"; "q" := "invoice" ]};
                files_image := None;
                json_body := Return (JDict [("token", JStr "gone.dd")]) |} in
  search req new_app = (Return InvalidToken, new_app)
  ∧ api_list req new_app = (Return InvalidToken, new_app)
  ∧ api_file req new_app = (Return InvalidToken, new_app)
  ∧ api_carve req new_app = (Return InvalidToken, new_app).
Proof.
  intros req.
  destruct (unknown_token_is_invalid new_app req) as (Hs & Hl & Hf & Hc).
  assert (Unknown.token new_app (args_get req "token")) as Ht.
  { vm_compute. reflexivity. }
  split; [|split; [|split]].
  - apply Hs, Ht.
  - apply Hl; [exact Ht | exists 2048%Z; vm_compute; reflexivity |].
    intros inode Hi. vm_compute in Hi. injection Hi as <-.
    exists 12345%Z. vm_compute. reflexivity.
  - apply Hf; [exact Ht | exists 12345%Z | exists 2048%Z]; vm_compute; reflexivity.
  - apply (Hc [("token", JStr "gone.dd")]); [reflexivity|].
    vm_compute. reflexivity.
Defined.

(** Against C1 as stated: with a token the table does not hold,
    [api_list] raises [ValueError] on a [start_offset] that is no integer,
    [api_file] raises [TypeError] when [inode] is absent, and [api_carve]
    raises [TypeError] on a token that is a JSON array: each fails before
    the token is looked up, and none answers [invalid token]. *)
Lemma unknown_token_malformed_parameters :
  let bad_offset := {| args := {[ "token" := "gone.dd"; "start_offset" := "abc" ]};
                       files_image := None; json_body := Return JNull |} in
  let no_inode := {| args := {[ "token" := "gone.dd" ]};
                     files_image := None; json_body := Return JNull |} in
  let list_token := {| args := ∅; files_image := None;
                       json_body := Return (JDict [("token", JList [])]) |} in
  Unknown.token new_app (args_get bad_offset "token")
  ∧ exn_cls <$> (match fst (api_list bad_offset new_app) with
                 | Raise e => Some e | Return _ => None end) = Some ValueError
  ∧ fst (api_list bad_offset new_app) ≠ Return InvalidToken
  ∧ Unknown.token new_app (args_get no_inode "token")
  ∧ exn_cls <$> (match fst (api_file no_inode new_app) with
                 | Raise e => Some e | Return _ => None end) = Some TypeError
  ∧ fst (api_file no_inode new_app) ≠ Return InvalidToken
  ∧ exn_cls <$> (match fst (api_carve list_token new_app) with
                 | Raise e => Some e | Return _ => None end) = Some TypeError
  ∧ fst (api_carve list_token new_app) ≠ Return InvalidToken.
Proof.
  intros bad_offset no_inode list_token.
  repeat split; try (vm_compute; reflexivity);
    vm_compute; intros H; discriminate H.
Qed.

End Handlers.

(** ** The model on concrete inputs *)

Section Checks.
Import Py WebApp.

Example eid_of_7 : Evidence.eid_of 7 = "E007".
Proof. reflexivity. Qed.

Example eid_of_1234 : Evidence.eid_of 1234 = "E1234".
Proof. reflexivity. Qed.

Example run_add_close_add :
  fst (Evidence.run [Evidence.AddEvidence "/a"; Evidence.CloseEvidence "E001";
                     Evidence.AddEvidence "/b"; Evidence.ResolveEvidence "E001"]
         Evidence.initial)
  = [Evidence.Added "E001"; Evidence.Closed true; Evidence.Added "E002";
     Evidence.Resolved (Some {| Evidence.path := "/a"; Evidence.open := false |})].
Proof. vm_compute. reflexivity. Qed.

Example splitext_dotfile : splitext "/a.b/.bashrc" = ("/a.b/.bashrc", "").
Proof. vm_compute. reflexivity. Qed.

Example splitext_two_dots : splitext "/a.b/..x.tar.gz" = ("/a.b/..x.tar", ".gz").
Proof. vm_compute. reflexivity. Qed.

Example splitext_trailing_dot : splitext "a." = ("a", ".").
Proof. vm_compute. reflexivity. Qed.

Example int_underscore : int_of_str " -1_000 " = Some (-1000)%Z.
Proof. vm_compute. reflexivity. Qed.

Example int_double_underscore : int_of_str "1__0" = None.
Proof. vm_compute. reflexivity. Qed.

Example int_empty : int_of_str "" = None.
Proof. vm_compute. reflexivity. Qed.

Example int_separator_not_skipped : int_of_str (String "028" "5") = None.
Proof. vm_compute. reflexivity. Qed.

Example int_separator_after : int_of_str (String "5" (String "031" "")) = None.
Proof. vm_compute. reflexivity. Qed.

Example int_latin1_spaces :
  int_of_str (String "133" (String "5" (String "160" ""))) = Some 5%Z.
Proof. vm_compute. reflexivity. Qed.

Example int_vertical_tab : int_of_str (String "011" (String "5" (String "012" ""))) = Some 5%Z.
Proof. vm_compute. reflexivity. Qed.

Example int_error_hex :
  int (Some "0x800")
  = Raise (mkExn ValueError "invalid literal for int() with base 10: '0x800'").
Proof. vm_compute. reflexivity. Qed.

Example int_error_separator :
  int (Some (String "028" "5"))
  = Raise (mkExn ValueError "invalid literal for int() with base 10: '\x1c5'").
Proof. vm_compute. reflexivity. Qed.

Example int_error_single_quote :
  exn_str <$> (match int (Some "a'b") with Raise e => Some e | Return _ => None end)
  = Some ("invalid literal for int() with base 10: "
          +:+ String "034" ("a'b" +:+ String "034" "")).
Proof. vm_compute. reflexivity. Qed.

Example hex_three : hex [x00; xff; x1a] = "00ff1a".
Proof. vm_compute. reflexivity. Qed.

Example decode_two_bytes : Utf8.decode [xc3; xa9; x41] = Some [233%N; 65%N].
Proof. vm_compute. reflexivity. Qed.

Example decode_four_bytes : Utf8.decode [xf0; x9f; x98; x80] = Some [128512%N].
Proof. vm_compute. reflexivity. Qed.

Example decode_overlong : Utf8.decode [xc0; x80] = None.
Proof. vm_compute. reflexivity. Qed.

Example decode_surrogate : Utf8.decode [xed; xa0; x80] = None.
Proof. vm_compute. reflexivity. Qed.

Example decode_truncated : Utf8.decode [x41; xe2; x82] = None.
Proof. vm_compute. reflexivity. Qed.

(** Bytes below 0x80 decode to themselves. *)
Lemma decode_ascii (bs : list byte) :
  Forall (λ b, (Byte.to_N b < 0x80)%N) bs →
  Utf8.decode bs = Some (Byte.to_N <$> bs).
Proof.
  induction 1 as [|b bs Hb _ IH]; [reflexivity|].
  cbn [Utf8.decode]. apply N.ltb_lt in Hb. cbv zeta. rewrite Hb, IH. reflexivity.
Qed.

Example view_demo_file :
  let st := {| image_handlers := {[ "img1.raw" := Demo (DemoImageHandler.__init__ "/u/img1.raw") ]};
               flashed := [] |} in
  let req := {| args := ∅; files_image := None; json_body := Return JNull |} in
  fst (view_file "img1.raw" 12345 req st)
  = Return (render_view_file "img1.raw" 12345
              (code_points "This is a demo file content for testing purposes.")
              true 49).
Proof. vm_compute. reflexivity. Qed.

End Checks.

(** * Further properties of the registry *)

Section RegistryRuns.
Import Evidence.

Lemma eid_of_eq (n m : nat) : eid_of n = eid_of m → n = m.
Proof.
  intros H. apply (f_equal eid_counter) in H.
  rewrite !eid_counter_eid_of in H. congruence.
Qed.

Lemma run_well_numbered (cs : list call) (st : registry) :
  well_numbered st → well_numbered (snd (run cs st)).
Proof.
  revert st. induction cs as [|c cs IH]; intros st Hwn; simpl; [done|].
  pose proof (IH _ (step_well_numbered c st Hwn)) as H.
  destruct (step c st) as [a st1]; simpl in *.
  by destruct (run cs st1) as [answers st2].
Qed.

Lemma reachable_well_numbered (cs : list call) :
  well_numbered (snd (run cs initial)).
Proof. apply run_well_numbered, initial_well_numbered. Qed.

(** In a well-numbered state the next identifier is not in the table. *)
Lemma next_identifier_free (st : registry) :
  well_numbered st → _evidence_db st !! eid_of (_next_id st) = None.
Proof.
  intros Hwn. destruct (_evidence_db st !! eid_of (_next_id st)) as [r|] eqn:E;
    [|done].
  destruct (Hwn _ (ex_intro _ r E)) as (k & Hk & Heq).
  apply eid_of_eq in Heq. lia.
Qed.

Lemma close_evidence_known (eid eid' : string) (st : registry) :
  is_Some (resolve_evidence eid' (snd (close_evidence eid st)))
  ↔ is_Some (resolve_evidence eid' st).
Proof.
  rewrite close_evidence_lookup. case_decide as Hd; [subst | done].
  by rewrite fmap_is_Some.
Qed.

Lemma run_known (cs : list call) (st : registry) (eid : string) :
  is_Some (resolve_evidence eid (snd (run cs st)))
  ↔ is_Some (resolve_evidence eid st) ∨ eid ∈ issued (fst (run cs st)).
Proof.
  revert st. induction cs as [|c cs IH]; intros st; simpl.
  - rewrite elem_of_nil. tauto.
  - specialize (IH (snd (step c st))).
    destruct c as [p|eid0|eid0]; simpl in *.
    + destruct (run cs _) as [answers st2]; simpl in *.
      rewrite IH, elem_of_cons. unfold resolve_evidence at 1; simpl.
      rewrite lookup_insert. case_decide as Hd.
      * subst. split; [intros _; right; by left | intros _; left; eauto].
      * unfold resolve_evidence. split; [tauto|].
        intros [H|[H|H]]; [tauto | congruence | tauto].
    + by destruct (run cs st) as [answers st2].
    + rewrite surjective_pairing with (p := close_evidence eid0 st) in *.
      simpl in *. destruct (run cs _) as [answers st2]; simpl in *.
      by rewrite IH, close_evidence_known.
Qed.

(** X1: after any sequence of calls from the initial state, the identifiers
    that resolve are exactly those the registrations returned: an id that
    was never issued resolves to nothing, and no issued id is ever lost. *)
Theorem resolves_iff_issued (cs : list call) (eid : string) :
  is_Some (resolve_evidence eid (snd (run cs initial)))
  ↔ eid ∈ issued (fst (run cs initial)).
Proof.
  rewrite run_known. unfold resolve_evidence at 1; simpl.
  rewrite lookup_empty. split; [intros [[r Hr]|H]; [done | exact H] | by right].
Qed.

Lemma run_size (cs : list call) (st : registry) :
  well_numbered st →
  size (_evidence_db (snd (run cs st))) = size (_evidence_db st) + registrations cs.
Proof.
  revert st. induction cs as [|c cs IH]; intros st Hwn; simpl; [lia|].
  specialize (IH _ (step_well_numbered c st Hwn)).
  destruct c as [p|eid0|eid0]; simpl in *.
  - destruct (run cs _) as [answers st2]; simpl in *. rewrite IH.
    rewrite map_size_insert_None by by apply next_identifier_free. lia.
  - by destruct (run cs st) as [answers st2].
  - rewrite surjective_pairing with (p := close_evidence eid0 st) in *.
    simpl in *. destruct (run cs _) as [answers st2]; simpl in *. rewrite IH.
    f_equal. unfold close_evidence.
    destruct (_evidence_db st !! eid0) as [r|] eqn:E; simpl; [|done].
    by rewrite map_size_insert_Some.
Qed.

(** X2: after any sequence of calls from the initial state, the table holds
    one record per registration made, and the counter is one more than the
    number of registrations: no registration overwrites a record, and
    closing neither adds nor removes one. *)
Theorem one_record_per_registration (cs : list call) :
  size (_evidence_db (snd (run cs initial))) = registrations cs
  ∧ _next_id (snd (run cs initial)) = S (registrations cs).
Proof.
  split.
  - rewrite run_size by apply initial_well_numbered. simpl.
    by rewrite map_size_empty.
  - destruct (run_issued cs initial) as [_ ->]. reflexivity.
Qed.

Lemma step_keeps_record (c : call) (st : registry) (eid : string) (r : EvidenceRecord) :
  well_numbered st →
  resolve_evidence eid st = Some r →
  ∃ r1, resolve_evidence eid (snd (step c st)) = Some r1
        ∧ path r1 = path r ∧ (open r = false → open r1 = false).
Proof.
  intros Hwn Hr. destruct c as [p|eid0|eid0]; simpl.
  - exists r. split; [|done]. unfold resolve_evidence in *; simpl.
    rewrite lookup_insert_ne; [done|].
    intros Heq. pose proof (next_identifier_free st Hwn) as Hfree.
    rewrite Heq in Hfree. congruence.
  - eauto.
  - rewrite surjective_pairing with (p := close_evidence eid0 st); simpl.
    rewrite close_evidence_lookup. case_decide as Hd; [subst|eauto].
    rewrite Hr. simpl. eauto.
Qed.

Lemma run_keeps_record (cs : list call) (st : registry) (eid : string) (r : EvidenceRecord) :
  well_numbered st →
  resolve_evidence eid st = Some r →
  ∃ r', resolve_evidence eid (snd (run cs st)) = Some r'
        ∧ path r' = path r ∧ (open r = false → open r' = false).
Proof.
  revert st r. induction cs as [|c cs IH]; intros st r Hwn Hr; simpl; [eauto|].
  destruct (step_keeps_record c st eid r Hwn Hr) as (r1 & Hr1 & Hp1 & Ho1).
  pose proof (step_well_numbered c st Hwn) as Hwn1.
  destruct (step c st) as [a st1]; simpl in *.
  destruct (IH st1 r1 Hwn1 Hr1) as (r' & Hr' & Hp' & Ho').
  destruct (run cs st1) as [answers st2]; simpl in *.
  exists r'. split; [done|]. split; [congruence | auto].
Qed.

(** X3: a record that resolves at some point of a process is never removed
    or replaced by later calls: it keeps resolving, its path stays the
    same, and once it is closed it stays closed. *)
Theorem record_is_kept (cs1 cs2 : list call) (eid : string) (r : EvidenceRecord) :
  resolve_evidence eid (snd (run cs1 initial)) = Some r →
  ∃ r', resolve_evidence eid (snd (run cs2 (snd (run cs1 initial)))) = Some r'
        ∧ path r' = path r ∧ (open r = false → open r' = false).
Proof. apply run_keeps_record, reachable_well_numbered. Qed.

Lemma record_is_kept_witness :
  let cs1 := [AddEvidence "/a.dd"; CloseEvidence "E001"] in
  let cs2 := [AddEvidence "/b.dd"; CloseEvidence "E002"; AddEvidence "/c.dd"] in
  ∃ r', resolve_evidence "E001" (snd (run cs2 (snd (run cs1 initial)))) = Some r'
        ∧ path r' = "/a.dd" ∧ open r' = false.
Proof.
  intros cs1 cs2.
  destruct (record_is_kept cs1 cs2 "E001" {| path := "/a.dd"; open := false |})
    as (r' & Hr' & Hp & Ho).
  - vm_compute. reflexivity.
  - exists r'. split; [exact Hr'|]. split; [exact Hp | apply Ho; reflexivity].
Defined.

(** X4: in a state reached from the initial one, a registration leaves
    every record already in the table exactly as it was. *)
Theorem add_evidence_keeps_records (cs : list call) (p eid : string) (r : EvidenceRecord) :
  resolve_evidence eid (snd (run cs initial)) = Some r →
  resolve_evidence eid (snd (add_evidence p (snd (run cs initial)))) = Some r.
Proof.
  intros Hr. unfold resolve_evidence in *; simpl.
  rewrite lookup_insert_ne; [done|].
  intros Heq.
  pose proof (next_identifier_free _ (reachable_well_numbered cs)) as Hfree.
  rewrite Heq in Hfree. congruence.
Qed.

Lemma add_evidence_keeps_records_witness :
  resolve_evidence "E001"
    (snd (add_evidence "/b.dd" (snd (run [AddEvidence "/a.dd"; CloseEvidence "E001"] initial))))
  = Some {| path := "/a.dd"; open := false |}.
Proof.
  apply (add_evidence_keeps_records [AddEvidence "/a.dd"; CloseEvidence "E001"]).
  vm_compute. reflexivity.
Defined.

(** X5: in every state, closing the identifier a registration has just
    returned succeeds, and the identifier then resolves to the registered
    path with [open = False]. *)
Theorem add_then_close (p : string) (st : registry) :
  let '(eid, st1) := add_evidence p st in
  let '(closed, st2) := close_evidence eid st1 in
  closed = true
  ∧ resolve_evidence eid st2 = Some {| path := p; open := false |}
  ∧ _next_id st2 = S (_next_id st).
Proof.
  unfold add_evidence, close_evidence; simpl.
  rewrite lookup_insert_eq; simpl.
  split; [done|]. split; [|done].
  unfold resolve_evidence; simpl. by rewrite lookup_insert_eq.
Qed.

Lemma registry_eq (st1 st2 : registry) :
  _evidence_db st1 = _evidence_db st2 → _next_id st1 = _next_id st2 → st1 = st2.
Proof. destruct st1, st2; simpl. by intros -> ->. Qed.

(** X6: two closes can be made in either order: the registry ends in the
    same state, and each close returns what it would have returned alone. *)
Theorem close_evidence_commutes (a b : string) (st : registry) :
  snd (close_evidence a (snd (close_evidence b st)))
  = snd (close_evidence b (snd (close_evidence a st)))
  ∧ fst (close_evidence a (snd (close_evidence b st))) = fst (close_evidence a st).
Proof.
  split.
  - apply registry_eq; [|by rewrite !close_evidence_next_id].
    apply map_eq. intros i.
    change (resolve_evidence i (snd (close_evidence a (snd (close_evidence b st))))
            = resolve_evidence i (snd (close_evidence b (snd (close_evidence a st))))).
    rewrite !close_evidence_lookup.
    repeat case_decide; subst; try done;
      by destruct (resolve_evidence _ st).
  - pose proof (close_evidence_known b a st) as Hk.
    unfold close_evidence at 1 3. unfold resolve_evidence in Hk.
    destruct (_evidence_db (snd (close_evidence b st)) !! a) as [r|] eqn:E1;
      destruct (_evidence_db st !! a) as [r0|] eqn:E2; simpl; try done.
    + destruct Hk as [Hk _]. by destruct Hk.
    + destruct Hk as [_ Hk]. by destruct Hk.
Qed.

(** X7: the counter can be read back from an identifier, whatever its
    width, so two different counter values never give the same identifier. *)
Theorem identifier_round_trip (n m : nat) :
  n ≠ m → eid_counter (eid_of n) = Some n ∧ eid_of n ≠ eid_of m.
Proof.
  intros Hne. split; [apply eid_counter_eid_of|].
  intros Heq. by apply eid_of_eq in Heq.
Qed.

Lemma identifier_round_trip_witness :
  eid_counter "E1000" = Some 1000 ∧ eid_of 1000 ≠ eid_of 100.
Proof.
  apply (identifier_round_trip 1000 100). intros H. discriminate H.
Defined.

End RegistryRuns.

(** * Further properties of the web layer *)

Section Sessions.
Import Py WebApp Shape.

(** Unfolds a handler body down to matches on its inputs. *)
Ltac route :=
  unfold api_list, api_file, api_carve, search, browse, view_file, carve_files,
    preview_file, open_session, upload, handlers_get_json, handlers_get,
    handlers_set, flash, bind, lift, ret, raise, flashing;
  cbv beta.

(** X8: no query handler changes the session table, and the four JSON and
    search handlers leave the whole state alone, flashed messages included,
    whatever the request and whether they return or raise. *)
Theorem queries_keep_sessions
    (req : request) (st : app_state) (token : string) (inode : Z) :
  snd (api_list req st) = st
  ∧ snd (api_file req st) = st
  ∧ snd (api_carve req st) = st
  ∧ snd (search req st) = st
  ∧ image_handlers (snd (browse token st)) = image_handlers st
  ∧ image_handlers (snd (view_file token inode req st)) = image_handlers st
  ∧ image_handlers (snd (carve_files token req st)) = image_handlers st
  ∧ image_handlers (snd (preview_file token inode req st)) = image_handlers st.
Proof.
  repeat split; route; repeat case_match; simplify_eq/=; done.
Qed.

(** X9: for a token the table does not hold, the page handlers send the
    caller back to the index page and flash the session-expired message;
    [browse] and [carve_files] always, [view_file] and [preview_file] once
    [start_offset] has been read as an integer. *)
Theorem expired_session_pages
    (st : app_state) (token : string) (inode : Z) (req : request) :
  image_handlers st !! token = None →
  let expired :=
    (Return (redirect index_page),
     flashing "Session expired. Re-upload the image." st) in
  browse token st = expired
  ∧ carve_files token req st = expired
  ∧ (Unknown.is_int (Some (args_get_default req "start_offset" "0")) →
     view_file token inode req st = expired
     ∧ preview_file token inode req st = expired).
Proof.
  intros Hnone expired. subst expired.
  split; [|split].
  - route. by rewrite Hnone.
  - route. by rewrite Hnone.
  - intros [off Hoff]. split; route; by rewrite Hoff, Hnone.
Qed.

Lemma expired_session_pages_witness :
  let req := {| args := {[ "start_offset" := "512" ]}; files_image := None;
                json_body := Return JNull |} in
  view_file "old.dd" 5 req new_app
  = (Return (redirect index_page),
     flashing "Session expired. Re-upload the image." new_app).
Proof.
  intros req.
  apply (expired_session_pages new_app "old.dd" 5 req).
  - vm_compute. reflexivity.
  - exists 512%Z. vm_compute. reflexivity.
Defined.

(** X10: opening a session touches no token but the base name of the path,
    whatever the constructor does; and whenever the caller is redirected
    to the browse page of a token, that token is the base name of the path
    and resolves in the table. *)
Theorem open_session_token
    (ImageHandler__init__ : string → py_result ImageHandler.t)
    (saved_path : string) (st : app_state) :
  let out := open_session ImageHandler__init__ saved_path st in
  (∀ t, t ≠ basename saved_path →
        image_handlers (snd out) !! t = image_handlers st !! t)
  ∧ (∀ t, fst out = Return (redirect (browse_page t)) →
          t = basename saved_path ∧ is_Some (image_handlers (snd out) !! t)).
Proof.
  intros out. subst out. split.
  - intros t Hne. route. repeat case_match; simplify_eq/=; try done;
      by rewrite lookup_insert_ne.
  - intros t. route. repeat case_match; simplify_eq/=; try done;
      intros [= <-]; rewrite lookup_insert_eq; eauto.
Qed.

Lemma open_session_token_witness :
  let ctor := λ _ : string,
    @Raise ImageHandler.t (mkExn ImportError "No module named 'pytsk3'") in
  let st := {| image_handlers := {[ "a.dd" := Demo (DemoImageHandler.__init__ "/u/a.dd") ]};
               flashed := [] |} in
  image_handlers (snd (open_session ctor "/u/b.dd" st)) !! "a.dd"
  = Some (Demo (DemoImageHandler.__init__ "/u/a.dd"))
  ∧ is_Some (image_handlers (snd (open_session ctor "/u/b.dd" st)) !! "b.dd").
Proof.
  intros ctor st.
  destruct (open_session_token ctor "/u/b.dd" st) as [Hframe Htok].
  split.
  - rewrite Hframe; [vm_compute; reflexivity|]. intros H. discriminate H.
  - apply (Htok "b.dd"). vm_compute. reflexivity.
Defined.

(** X11: a request [upload] turns down is answered by a redirect to the
    index page with one message flashed; the session table is unchanged,
    and nothing is saved or parsed: the answer does not depend on the
    upload folder, on [secure_filename], on [file.save] or on the
    constructor. *)
Theorem upload_rejection
    (UPLOAD_FOLDER UPLOAD_FOLDER' : string)
    (secure_filename secure_filename' : string → string)
    (file_save file_save' : string → py_result unit)
    (ImageHandler__init__ ImageHandler__init__' : string → py_result ImageHandler.t)
    (req : request) (st : app_state) :
  rejected req = true →
  let out := upload UPLOAD_FOLDER secure_filename file_save ImageHandler__init__ req st in
  fst out = Return (redirect index_page)
  ∧ image_handlers (snd out) = image_handlers st
  ∧ length (flashed (snd out)) = S (length (flashed st))
  ∧ out = upload UPLOAD_FOLDER' secure_filename' file_save' ImageHandler__init__' req st.
Proof.
  intros Hrej out. subst out. unfold rejected in Hrej. route.
  destruct (files_image req) as [f|]; simpl.
  - destruct (String.eqb f ""); simpl in *.
    + rewrite length_app; simpl. repeat split; try done; lia.
    + rewrite Hrej; simpl. rewrite length_app; simpl.
      repeat split; try done; lia.
  - rewrite length_app; simpl. repeat split; try done; lia.
Qed.

Lemma upload_rejection_witness :
  let req := {| args := ∅; files_image := Some "notes.txt";
                json_body := Return JNull |} in
  let out := upload "/srv/uploads" (λ s, s) (λ _, Return tt)
               (λ _, Raise (mkExn RuntimeError "unused")) req new_app in
  fst out = Return (redirect index_page)
  ∧ out = upload "/tmp" (λ _, "x") (λ _, Raise (mkExn OSError "disk full"))
            (λ _, Raise (mkExn ImportError "unused")) req new_app.
Proof.
  intros req out.
  destruct (upload_rejection "/srv/uploads" "/tmp" (λ s, s) (λ _, "x")
              (λ _, Return tt) (λ _, Raise (mkExn OSError "disk full"))
              (λ _, Raise (mkExn RuntimeError "unused"))
              (λ _, Raise (mkExn ImportError "unused")) req new_app)
    as (Hres & _ & _ & Heq).
  - vm_compute. reflexivity.
  - split; [exact Hres | exact Heq].
Defined.

(** X12: when the file passes the filter, is saved, and the constructor
    returns a handler, [upload] binds the base name of the saved path to
    that handler, flashes nothing, and redirects to the browse page of the
    token; when saving raises, the exception propagates and the state is
    left as it was. *)
Theorem upload_opens_session
    (UPLOAD_FOLDER : string) (secure_filename : string → string)
    (file_save : string → py_result unit)
    (ImageHandler__init__ : string → py_result ImageHandler.t)
    (req : request) (st : app_state) (file_filename : string) :
  let saved_path := join UPLOAD_FOLDER (secure_filename file_filename) in
  let token := basename saved_path in
  let out := upload UPLOAD_FOLDER secure_filename file_save ImageHandler__init__ req st in
  rejected req = false →
  files_image req = Some file_filename →
  (∀ h, file_save saved_path = Return tt →
        ImageHandler__init__ saved_path = Return h →
        out = (Return (redirect (browse_page token)),
               {| image_handlers := <[token := Real h]> (image_handlers st);
                  flashed := flashed st |}))
  ∧ (∀ e, file_save saved_path = Raise e → out = (Raise e, st)).
Proof.
  intros saved_path token out Hrej Hfile. subst out.
  unfold rejected in Hrej. rewrite Hfile in Hrej.
  apply orb_false_elim in Hrej as [Hne Hallowed].
  apply negb_false_iff in Hallowed.
  split.
  - intros h Hsave Hinit. unfold upload. rewrite Hfile, Hne, Hallowed; simpl.
    fold saved_path. unfold bind at 1, lift. rewrite Hsave.
    unfold open_session. rewrite Hinit. reflexivity.
  - intros e Hsave. unfold upload. rewrite Hfile, Hne, Hallowed; simpl.
    fold saved_path. unfold bind at 1, lift. by rewrite Hsave.
Qed.

Lemma upload_opens_session_witness :
  let h := {| ImageHandler.get_partitions := Return [];
              ImageHandler.is_wiped := Return true;
              ImageHandler.get_directory_contents := λ _ _, Return [];
              ImageHandler.get_file_content := λ _ _, Return (None, None);
              ImageHandler.detect_file_type :=
                λ _, Return (FileType.mk "data" "bin" "Binary");
              ImageHandler.carve_files_by_type := λ _, Return [];
              ImageHandler.search_files := λ _, Return [] |} in
  let req := {| args := ∅; files_image := Some "case9.dd";
                json_body := Return JNull |} in
  upload "/srv/uploads/" (λ s, s) (λ _, Return tt) (λ _, Return h) req new_app
  = (Return (redirect (browse_page "case9.dd")),
     {| image_handlers := <["case9.dd" := Real h]> ∅; flashed := [] |}).
Proof.
  intros h req.
  apply (proj1 (upload_opens_session "/srv/uploads/" (λ s, s) (λ _, Return tt)
                  (λ _, Return h) req new_app "case9.dd"
                  ltac:(vm_compute; reflexivity) eq_refl) h eq_refl eq_refl).
Defined.

(** X13: tokens collide on the base name: a session opened on a path takes
    over the token of any earlier session whose path has the same base
    name, and the earlier handler no longer resolves under it. *)
Theorem same_name_takes_over
    (ctor1 ctor2 : string → py_result ImageHandler.t)
    (path1 path2 : string) (h2 : ImageHandler.t) (st : app_state) :
  basename path1 = basename path2 →
  ctor2 path2 = Return h2 →
  let st1 := snd (open_session ctor1 path1 st) in
  let st2 := snd (open_session ctor2 path2 st1) in
  image_handlers st2 !! basename path1 = Some (Real h2)
  ∧ dom (image_handlers st2) = {[ basename path1 ]} ∪ dom (image_handlers st1).
Proof.
  intros Hbase Hctor st1 st2. subst st2. unfold open_session at 1 2.
  rewrite Hctor, <- Hbase. unfold bind, handlers_set, ret; simpl.
  split; [apply lookup_insert_eq | apply dom_insert_L].
Qed.

Lemma same_name_takes_over_witness :
  let h k := {| ImageHandler.get_partitions := Return [(k, "p", 0, 1)%Z];
                ImageHandler.is_wiped := Return false;
                ImageHandler.get_directory_contents := λ _ _, Return [];
                ImageHandler.get_file_content := λ _ _, Return (None, None);
                ImageHandler.detect_file_type :=
                  λ _, Return (FileType.mk "data" "bin" "Binary");
                ImageHandler.carve_files_by_type := λ _, Return [];
                ImageHandler.search_files := λ _, Return [] |} in
  let st1 := snd (open_session (λ _, Return (h 1%Z)) "/cases/a/disk.img" new_app) in
  let st2 := snd (open_session (λ _, Return (h 2%Z)) "/cases/b/disk.img" st1) in
  image_handlers st1 !! "disk.img" = Some (Real (h 1%Z))
  ∧ image_handlers st2 !! "disk.img" = Some (Real (h 2%Z)).
Proof.
  intros h st1 st2. split; [vm_compute; reflexivity|].
  apply (same_name_takes_over (λ _, Return (h 1%Z)) (λ _, Return (h 2%Z))
           "/cases/a/disk.img" "/cases/b/disk.img" (h 2%Z) new_app);
    reflexivity.
Defined.

(** X14: a [start_offset] that [int] does not accept makes [api_list],
    [view_file] and [preview_file] raise the [ValueError] of [int] before
    the token is looked at, so also for a token that resolves; [api_file]
    does the same once its [inode] has been read.  The state is left as it
    was. *)
Theorem malformed_offset_raises
    (st : app_state) (token : string) (inode : Z) (req : request) :
  int_of_str (args_get_default req "start_offset" "0") = None →
  ∃ e, int (Some (args_get_default req "start_offset" "0")) = Raise e
       ∧ exn_cls e = ValueError
       ∧ api_list req st = (Raise e, st)
       ∧ view_file token inode req st = (Raise e, st)
       ∧ preview_file token inode req st = (Raise e, st)
       ∧ (Unknown.is_int (args_get req "inode") → api_file req st = (Raise e, st)).
Proof.
  intros Hbad.
  exists (mkExn ValueError (int_error_text (args_get_default req "start_offset" "0"))).
  assert (int (Some (args_get_default req "start_offset" "0"))
          = Raise (mkExn ValueError
                     (int_error_text (args_get_default req "start_offset" "0"))))
    as Hint by (unfold int; by rewrite Hbad).
  split; [exact Hint|]. split; [reflexivity|].
  repeat split; route; rewrite ?Hint; try done.
  intros [n Hn]. by rewrite Hn.
Qed.

Lemma malformed_offset_raises_witness :
  let st := {| image_handlers := {[ "a.dd" := Demo (DemoImageHandler.__init__ "/u/a.dd") ]};
               flashed := [] |} in
  let req := {| args := {[ "token" := "a.dd"; "start_offset" := "0x800" ]};
                files_image := None; json_body := Return JNull |} in
  api_list req st
  = (Raise (mkExn ValueError "invalid literal for int() with base 10: '0x800'"), st).
Proof.
  intros st req.
  destruct (malformed_offset_raises st "a.dd" 0 req) as (e & Hint & _ & Hl & _).
  - vm_compute. reflexivity.
  - rewrite Hl. vm_compute in Hint. by injection Hint as <-.
Defined.

(** X15: when the token resolves and the handler returns no content for
    the inode, [api_file] answers [not found] with status 404 and changes
    nothing, while [view_file] and [preview_file] flash that the file was
    not found and redirect to the browse page of the token. *)
Theorem content_not_found
    (st : app_state) (token : string) (inode start_offset : Z) (req : request)
    (h : handler) (meta : metadata) :
  args_get req "token" = Some token →
  int (args_get req "inode") = Return inode →
  int (Some (args_get_default req "start_offset" "0")) = Return start_offset →
  image_handlers st !! token = Some h →
  get_file_content h inode start_offset = Return (None, meta) →
  let back :=
    (Return (redirect (browse_page token)),
     flashing "File not found or could not be read." st) in
  api_file req st = (Return (jsonify_error "not found" 404), st)
  ∧ view_file token inode req st = back
  ∧ preview_file token inode req st = back.
Proof.
  intros Htok Hinode Hoff Hh Hc back. subst back.
  repeat split; route; rewrite ?Htok, ?Hinode, Hoff, Hh, Hc; reflexivity.
Qed.

Lemma content_not_found_witness :
  let h := Real {| ImageHandler.get_partitions := Return [];
                   ImageHandler.is_wiped := Return false;
                   ImageHandler.get_directory_contents := λ _ _, Return [];
                   ImageHandler.get_file_content := λ _ _, Return (None, None);
                   ImageHandler.detect_file_type :=
                     λ _, Return (FileType.mk "data" "bin" "Binary");
                   ImageHandler.carve_files_by_type := λ _, Return [];
                   ImageHandler.search_files := λ _, Return [] |} in
  let st := {| image_handlers := {[ "a.dd" := h ]}; flashed := [] |} in
  let req := {| args := {[ "token" := "a.dd"; "inode" := "77" ]};
                files_image := None; json_body := Return JNull |} in
  api_file req st = (Return (jsonify_error "not found" 404), st).
Proof.
  intros h st req.
  apply (content_not_found st "a.dd" 77 0 req h None);
    vm_compute; reflexivity.
Defined.

(** X16: on a demo session every inode and every offset give the same
    fixed content: [api_file] sends it as [inode_<n>.bin] and never answers
    [not found], and [view_file] shows it as text of 49 bytes. *)
Theorem demo_session_content
    (st : app_state) (token : string) (inode start_offset : Z) (req : request)
    (d : DemoImageHandler.t) :
  args_get req "token" = Some token →
  int (args_get req "inode") = Return inode →
  int (Some (args_get_default req "start_offset" "0")) = Return start_offset →
  image_handlers st !! token = Some (Demo d) →
  let demo := "This is a demo file content for testing purposes." in
  api_file req st
  = (Return (send_file (list_byte_of_string demo)
               ("inode_" +:+ str_of_int inode +:+ ".bin")), st)
  ∧ view_file token inode req st
    = (Return (render_view_file token inode (code_points demo) true 49), st).
Proof.
  intros Htok Hinode Hoff Hh demo. subst demo.
  split; route; rewrite ?Htok, ?Hinode, Hoff, Hh; reflexivity.
Qed.

Lemma demo_session_content_witness :
  let st := {| image_handlers := {[ "a.dd" := Demo (DemoImageHandler.__init__ "/u/a.dd") ]};
               flashed := [] |} in
  let req := {| args := {[ "token" := "a.dd"; "inode" := "-3" ]};
                files_image := None; json_body := Return JNull |} in
  fst (api_file req st)
  = Return (send_file
              (list_byte_of_string "This is a demo file content for testing purposes.")
              "inode_-3.bin").
Proof.
  intros st req.
  rewrite (proj1 (demo_session_content st "a.dd" (-3) 0 req
                    (DemoImageHandler.__init__ "/u/a.dd")
                    ltac:(vm_compute; reflexivity) ltac:(vm_compute; reflexivity)
                    ltac:(vm_compute; reflexivity) ltac:(vm_compute; reflexivity))).
  reflexivity.
Defined.

(** X17: an exception raised by a method of the real handler is not caught
    by the JSON and search handlers: it reaches the caller as it is, and
    the state is left as it was. *)
Theorem backend_errors_propagate
    (st : app_state) (token : string) (req : request)
    (r : ImageHandler.t) (e : exn) :
  args_get req "token" = Some token →
  image_handlers st !! token = Some (Real r) →
  (∀ start_offset inode_num,
      int (Some (args_get_default req "start_offset" "0")) = Return start_offset →
      match inode_num with
      | Some n => int (args_get req "inode") = Return n
      | None => args_get req "inode" = None
      end →
      ImageHandler.get_directory_contents r start_offset inode_num = Raise e →
      api_list req st = (Raise e, st))
  ∧ (ImageHandler.search_files r (args_get_default req "q" "") = Raise e →
     search req st = (Raise e, st)).
Proof.
  intros Htok Hh. split.
  - intros off inode_num Hoff Hinode Hraise. route. rewrite Hoff.
    destruct inode_num as [n|].
    + destruct (args_get req "inode") as [s|] eqn:Hs; [|done].
      rewrite Hinode, Htok, Hh. simpl. by rewrite Hraise.
    + rewrite Hinode, Htok, Hh. simpl. by rewrite Hraise.
  - intros Hraise. route. rewrite Htok, Hh. simpl. by rewrite Hraise.
Qed.

Lemma backend_errors_propagate_witness :
  let e := mkExn OSError "read past end of image" in
  let r := {| ImageHandler.get_partitions := Return [];
              ImageHandler.is_wiped := Return false;
              ImageHandler.get_directory_contents := λ _ _, Raise e;
              ImageHandler.get_file_content := λ _ _, Return (None, None);
              ImageHandler.detect_file_type :=
                λ _, Return (FileType.mk "data" "bin" "Binary");
              ImageHandler.carve_files_by_type := λ _, Return [];
              ImageHandler.search_files := λ _, Raise e |} in
  let st := {| image_handlers := {[ "a.dd" := Real r ]}; flashed := [] |} in
  let req := {| args := {[ "token" := "a.dd"; "inode" := "5" ]};
                files_image := None; json_body := Return JNull |} in
  api_list req st = (Raise e, st) ∧ search req st = (Raise e, st).
Proof.
  intros e r st req.
  destruct (backend_errors_propagate st "a.dd" req r e) as [Hl Hs].
  - vm_compute. reflexivity.
  - vm_compute. reflexivity.
  - split.
    + apply (Hl 0%Z (Some 5%Z)); vm_compute; reflexivity.
    + apply Hs. reflexivity.
Defined.

(** X26: [api_carve] needs a JSON object as body: when reading the body
    raises, the exception propagates, and when the body is JSON of another
    kind, [AttributeError] is raised; for an object whose token is an array
    or an object, [TypeError] is raised.  In all three cases no handler is
    called and the state is left as it was. *)
Theorem api_carve_body (st : app_state) (req : request) :
  match json_body req with
  | Raise e => api_carve req st = (Raise e, st)
  | Return (JDict items) =>
      match dict_get "token" items JNull with
      | JList _ | JDict _ =>
          ∃ e, api_carve req st = (Raise e, st) ∧ exn_cls e = TypeError
      | JStr t =>
          image_handlers st !! t = None → api_carve req st = (Return InvalidToken, st)
      | _ => api_carve req st = (Return InvalidToken, st)
      end
  | Return _ =>
      ∃ e, api_carve req st = (Raise e, st) ∧ exn_cls e = AttributeError
  end.
Proof.
  route. destruct (json_body req) as [[| | | | |items]|e]; simpl; eauto.
  destruct (dict_get "token" items JNull); simpl; eauto.
  by intros ->.
Qed.

Lemma api_carve_body_witness :
  let req := {| args := ∅; files_image := None;
                json_body := Return (JDict [("type", JStr "jpg");
                                            ("token", JStr "gone.dd")]) |} in
  api_carve req new_app = (Return InvalidToken, new_app).
Proof.
  intros req. apply (api_carve_body new_app req). vm_compute. reflexivity.
Defined.

End Sessions.

(** * Further properties of the content view *)

Section Content.
Import Py WebApp Shape.

Lemma between_bounds (lo hi b : N) :
  Utf8.between lo hi b = true → (lo <= b <= hi)%N.
Proof.
  unfold Utf8.between. intros H. apply andb_true_iff in H as [H1 H2].
  apply N.leb_le in H1, H2. lia.
Qed.

Lemma second_bounds (b0 b1 : N) :
  Utf8.between (Utf8.second_lo b0) (Utf8.second_hi b0) b1 = true →
  (0x80 <= b1 <= 0xBF)%N.
Proof.
  intros H. apply between_bounds in H. unfold Utf8.second_lo, Utf8.second_hi in H.
  repeat case_match; lia.
Qed.

Lemma never_valid_false (b : byte) :
  (Byte.to_N b < 0xC0 ∨ 0xC2 <= Byte.to_N b <= 0xF4)%N → never_valid b = false.
Proof.
  intros H. unfold never_valid. cbv zeta.
  destruct (N.eqb_spec (Byte.to_N b) 0xC0), (N.eqb_spec (Byte.to_N b) 0xC1),
    (N.leb_spec 0xF5 (Byte.to_N b)); simpl; try reflexivity; lia.
Qed.

(** What a successful decoding says about the bytes: none of them is a
    byte that never occurs in UTF-8, and there are at least as many bytes
    as code points. *)
Lemma decode_Some_shape (n : nat) (bs : list byte) (cps : list N) :
  length bs <= n →
  Utf8.decode bs = Some cps →
  Forall (λ b, never_valid b = false) bs ∧ length cps <= length bs.
Proof.
  revert bs cps. induction n as [|n IH]; intros bs cps Hlen Hdec.
  - destruct bs; [|simpl in Hlen; lia]. simpl in Hdec.
    injection Hdec as <-. split; [constructor | simpl; lia].
  - destruct bs as [|x0 r0]; [simpl in Hdec; injection Hdec as <-; split;
                              [constructor | simpl; lia]|].
    cbn [Utf8.decode] in Hdec. cbv zeta in Hdec. simpl in Hlen.
    destruct (N.ltb_spec (Byte.to_N x0) 0x80) as [H0|H0].
    { destruct (Utf8.decode r0) as [cps0|] eqn:E0; [|done].
      injection Hdec as <-. destruct (IH r0 cps0) as [Hv Hl]; [lia | done |].
      split; [constructor; [apply never_valid_false; lia | done] | simpl; lia]. }
    destruct (Utf8.between 0xC2 0xDF (Byte.to_N x0)) eqn:B2.
    { apply between_bounds in B2.
      destruct r0 as [|x1 r1]; [done|].
      destruct (Utf8.continuation (Byte.to_N x1)) eqn:C1; [|done].
      apply between_bounds in C1.
      destruct (Utf8.decode r1) as [cps1|] eqn:E1; [|done].
      injection Hdec as <-. simpl in Hlen.
      destruct (IH r1 cps1) as [Hv Hl]; [lia | done |].
      split; [| simpl; lia].
      repeat constructor; try done; apply never_valid_false; lia. }
    destruct (Utf8.between 0xE0 0xEF (Byte.to_N x0)) eqn:B3.
    { apply between_bounds in B3.
      destruct r0 as [|x1 [|x2 r2]]; [done | done |].
      destruct (Utf8.between _ _ (Byte.to_N x1)) eqn:C1; [|done].
      destruct (Utf8.continuation (Byte.to_N x2)) eqn:C2; [|done].
      apply second_bounds in C1. apply between_bounds in C2.
      simpl in Hdec.
      destruct (Utf8.decode r2) as [cps2|] eqn:E2; [|done].
      injection Hdec as <-. simpl in Hlen.
      destruct (IH r2 cps2) as [Hv Hl]; [lia | done |].
      split; [| simpl; lia].
      repeat constructor; try done; apply never_valid_false; lia. }
    destruct (Utf8.between 0xF0 0xF4 (Byte.to_N x0)) eqn:B4; [|done].
    apply between_bounds in B4.
    destruct r0 as [|x1 [|x2 [|x3 r3]]]; [done | done | done |].
    destruct (Utf8.between _ _ (Byte.to_N x1)) eqn:C1; [|done].
    destruct (Utf8.continuation (Byte.to_N x2)) eqn:C2; [|done].
    destruct (Utf8.continuation (Byte.to_N x3)) eqn:C3; [|done].
    apply second_bounds in C1. apply between_bounds in C2, C3.
    simpl in Hdec.
    destruct (Utf8.decode r3) as [cps3|] eqn:E3; [|done].
    injection Hdec as <-. simpl in Hlen.
    destruct (IH r3 cps3) as [Hv Hl]; [lia | done |].
    split; [| simpl; lia].
    repeat constructor; try done; apply never_valid_false; lia.
Qed.

(** X18: content whose bytes are all below 0x80 is shown as text, one code
    point per byte, equal to the byte. *)
Theorem ascii_content_is_text (content : list byte) :
  Forall (λ b, (Byte.to_N b < 0x80)%N) content →
  classify content = (Byte.to_N <$> content, true).
Proof. intros H. unfold classify. by rewrite decode_ascii. Qed.

Lemma ascii_content_is_text_witness :
  classify (list_byte_of_string "MZ header") = (code_points "MZ header", true).
Proof.
  apply (ascii_content_is_text (list_byte_of_string "MZ header")).
  repeat constructor.
Defined.

(** X19: content that holds, anywhere, one of the bytes 0xC0, 0xC1 or
    0xF5 to 0xFF is never shown as text: the view falls back to the
    hexadecimal digits of its first 1000 bytes. *)
Theorem never_valid_byte_is_binary (content : list byte) (b : byte) :
  b ∈ content → never_valid b = true →
  classify content = (code_points (hex (take 1000 content)), false).
Proof.
  intros Hin Hbad. unfold classify.
  destruct (Utf8.decode content) as [cps|] eqn:Hd; [|done].
  destruct (decode_Some_shape (length content) content cps) as [Hv _]; [lia|done|].
  rewrite Forall_forall in Hv. specialize (Hv b Hin). congruence.
Qed.

Lemma never_valid_byte_is_binary_witness :
  classify [x50; x4b; x03; x04; xff] = (code_points "504b0304ff", false).
Proof.
  apply (never_valid_byte_is_binary [x50; x4b; x03; x04; xff] xff).
  - repeat constructor.
  - reflexivity.
Defined.

(** X20: what the view shows is bounded by the content: text has at most
    one code point per byte, and the hexadecimal form has at most 2000
    digits. *)
Theorem shown_length_bound (content : list byte) :
  let '(shown, is_text) := classify content in
  if is_text then length shown <= length content
  else length shown <= 2000 ∧ length shown <= 2 * length content.
Proof.
  unfold classify. destruct (Utf8.decode content) as [cps|] eqn:Hd.
  - by destruct (decode_Some_shape (length content) content cps) as [_ Hl];
      [lia | done |].
  - rewrite code_points_length, hex_length, length_take. lia.
Qed.

End Content.

(** * Further properties of paths, tokens and the upload filter *)

Section Paths.
Import Py WebApp Shape.

Lemma rfind_from_shift (c : ascii) (s : string) (i last : Z) :
  rfind_from c s i last
  = if (rfind_from c s 0 (-1) <? 0)%Z then last
    else (i + rfind_from c s 0 (-1))%Z.
Proof.
  revert i last. induction s as [|a s IH]; intros i last; simpl; [reflexivity|].
  rewrite (IH (i + 1)%Z), (IH 1%Z).
  destruct (Z.ltb_spec (rfind_from c s 0 (-1)) 0) as [Hneg|Hpos].
  - destruct (Ascii.eqb a c); simpl; [f_equal; lia | reflexivity].
  - destruct (Z.ltb_spec (1 + rfind_from c s 0 (-1)) 0); lia.
Qed.

(** [rfind] one character at a time. *)
Lemma rfind_cons (a c : ascii) (s : string) :
  rfind (String a s) c
  = if (rfind s c <? 0)%Z then (if Ascii.eqb a c then 0 else -1)%Z
    else (1 + rfind s c)%Z.
Proof. unfold rfind; simpl. by rewrite rfind_from_shift. Qed.

Lemma rfind_range (s : string) (c : ascii) :
  (-1 <= rfind s c < Z.of_nat (String.length s))%Z.
Proof.
  induction s as [|a s IH]; [unfold rfind; simpl; lia|].
  rewrite rfind_cons. simpl String.length.
  destruct (Z.ltb_spec (rfind s c) 0); [destruct (Ascii.eqb a c)|]; lia.
Qed.

Lemma rfind_none (s : string) (c : ascii) :
  (rfind s c < 0)%Z ↔ contains c s = false.
Proof.
  induction s as [|a s IH]; [unfold rfind; simpl; split; [done | lia]|].
  rewrite rfind_cons. simpl. pose proof (rfind_range s c).
  destruct (Z.ltb_spec (rfind s c) 0) as [Hneg|Hpos].
  - destruct (Ascii.eqb a c); simpl; [split; [lia | done]|].
    rewrite <- IH. split; [done | lia].
  - split; [lia|]. intros Hc. apply orb_false_elim in Hc as [_ Hc].
    apply IH in Hc. lia.
Qed.

(** The character at the index [rfind] returns is the one looked for. *)
Lemma rfind_get (s : string) (c : ascii) :
  (0 <= rfind s c)%Z → String.get (Z.to_nat (rfind s c)) s = Some c.
Proof.
  induction s as [|a s IH]; [unfold rfind; simpl; lia|].
  rewrite rfind_cons. pose proof (rfind_range s c).
  destruct (Z.ltb_spec (rfind s c) 0) as [Hneg|Hpos].
  - destruct (Ascii.eqb_spec a c); [subst; done | lia].
  - intros _. replace (Z.to_nat (1 + rfind s c)) with (S (Z.to_nat (rfind s c))) by lia.
    simpl. by apply IH.
Qed.

(** Nothing after the index [rfind] returns is the character looked for. *)
Lemma rfind_is_last (s : string) (c : ascii) :
  contains c (drop_str (Z.to_nat (rfind s c + 1)) s) = false.
Proof.
  induction s as [|a s IH]; [reflexivity|].
  rewrite rfind_cons. pose proof (rfind_range s c).
  destruct (Z.ltb_spec (rfind s c) 0) as [Hneg|Hpos].
  - assert (contains c s = false) as Hs by by apply rfind_none.
    destruct (Ascii.eqb a c) eqn:Hac; simpl; [done | by rewrite Hac].
  - replace (Z.to_nat (1 + rfind s c + 1)) with (S (Z.to_nat (rfind s c + 1))) by lia.
    simpl. exact IH.
Qed.

Lemma take_drop_str (n : nat) (s : string) : take_str n s +:+ drop_str n s = s.
Proof.
  revert s. induction n as [|n IH]; intros [|a s]; simpl; try reflexivity.
  change (String a (take_str n s +:+ drop_str n s) = String a s).
  by rewrite IH.
Qed.

Lemma str_app_empty (s : string) : s +:+ EmptyString = s.
Proof.
  induction s as [|a s IH]; [reflexivity|].
  change (String a (s +:+ EmptyString) = String a s). by rewrite IH.
Qed.

Lemma drop_str_get (n : nat) (s : string) (c : ascii) :
  String.get n s = Some c → drop_str n s = String c (drop_str (S n) s).
Proof.
  revert s. induction n as [|n IH]; intros [|a s] H; simpl in *; try done.
  - by injection H as ->.
  - by apply IH.
Qed.

Lemma contains_drop_S (c : ascii) (n : nat) (s : string) :
  contains c (drop_str n s) = false → contains c (drop_str (S n) s) = false.
Proof.
  revert s. induction n as [|n IH]; intros [|a s] H; simpl in *; try done.
  - by apply orb_false_elim in H as [_ H].
  - by apply IH.
Qed.

Lemma contains_drop_le (c : ascii) (n m : nat) (s : string) :
  n <= m → contains c (drop_str n s) = false → contains c (drop_str m s) = false.
Proof.
  induction 1 as [|m Hle IH]; [done|]. intros H. by apply contains_drop_S, IH.
Qed.

Lemma splitext_loop_concat (n : nat) (p : string) (filenameIndex dotIndex : Z) :
  fst (splitext_loop n p filenameIndex dotIndex)
  +:+ snd (splitext_loop n p filenameIndex dotIndex) = p.
Proof.
  revert filenameIndex. induction n as [|n IH]; intros f; simpl.
  - apply str_app_empty.
  - repeat case_match; simpl; try apply take_drop_str. apply IH.
Qed.

Lemma splitext_loop_ext (n : nat) (p : string) (filenameIndex dotIndex : Z) :
  snd (splitext_loop n p filenameIndex dotIndex) = EmptyString
  ∨ snd (splitext_loop n p filenameIndex dotIndex) = drop_str (Z.to_nat dotIndex) p.
Proof.
  revert filenameIndex. induction n as [|n IH]; intros f; simpl; [by left|].
  repeat case_match; simpl; try (by right). apply IH.
Qed.

(** X21: the two parts [os.path.splitext] returns, put together again, are
    the path. *)
Theorem splitext_concat (p : string) :
  fst (splitext p) +:+ snd (splitext p) = p.
Proof.
  unfold splitext. case_match; [apply splitext_loop_concat|].
  apply str_app_empty.
Qed.

(** X22: the extension [os.path.splitext] returns is empty, or it is a dot
    followed by characters none of which is a dot or a slash. *)
Theorem splitext_extension (p : string) :
  snd (splitext p) = EmptyString
  ∨ ∃ rest, snd (splitext p) = String "." rest
            ∧ contains "." rest = false ∧ contains "/" rest = false.
Proof.
  unfold splitext.
  destruct (Z.ltb_spec (rfind p "/") (rfind p ".")) as [Hlt|Hge]; [|by left].
  pose proof (rfind_range p "/") as Hsep.
  destruct (splitext_loop_ext (Z.to_nat (rfind p "." - (rfind p "/" + 1))) p
              (rfind p "/" + 1) (rfind p ".")) as [->| ->]; [by left|].
  right. exists (drop_str (S (Z.to_nat (rfind p "."))) p).
  split; [apply drop_str_get, rfind_get; lia|].
  split.
  - pose proof (rfind_is_last p ".") as H.
    by replace (Z.to_nat (rfind p "." + 1)) with (S (Z.to_nat (rfind p "."))) in H
      by lia.
  - apply (contains_drop_le _ (Z.to_nat (rfind p "/" + 1))); [lia|].
    apply rfind_is_last.
Qed.

Lemma contains_app (c : ascii) (a b : string) :
  contains c (a +:+ b) = contains c a || contains c b.
Proof.
  induction a as [|x a IH]; [reflexivity|].
  change (Ascii.eqb x c || contains c (a +:+ b)
          = Ascii.eqb x c || contains c a || contains c b).
  rewrite IH. apply orb_assoc.
Qed.

Lemma str_app_assoc (a b c : string) : (a +:+ b) +:+ c = a +:+ (b +:+ c).
Proof.
  induction a as [|x a IH]; [reflexivity|].
  change (String x ((a +:+ b) +:+ c) = String x (a +:+ (b +:+ c))).
  by rewrite IH.
Qed.

Lemma basename_cons (x : ascii) (s : string) :
  basename (String x s)
  = if (rfind s "/" <? 0)%Z
    then (if Ascii.eqb x "/" then s else String x s)
    else basename s.
Proof.
  unfold basename. rewrite rfind_cons. pose proof (rfind_range s "/").
  destruct (Z.ltb_spec (rfind s "/") 0) as [Hneg|Hpos].
  - by destruct (Ascii.eqb x "/").
  - by replace (Z.to_nat (1 + rfind s "/" + 1))
      with (S (Z.to_nat (rfind s "/" + 1))) by lia.
Qed.

Lemma basename_no_slash (p : string) :
  contains "/" p = false → basename p = p.
Proof.
  intros H. apply rfind_none in H. pose proof (rfind_range p "/").
  unfold basename. by replace (rfind p "/") with (-1)%Z by lia.
Qed.

Lemma basename_app_slash (a b : string) :
  contains "/" b = false → basename (a +:+ String "/" b) = b.
Proof.
  intros Hb. induction a as [|x a IH].
  - change (basename (String "/" b) = b). rewrite basename_cons.
    apply rfind_none in Hb. by destruct (Z.ltb_spec (rfind b "/") 0); [|lia].
  - change (basename (String x (a +:+ String "/" b)) = b).
    rewrite basename_cons.
    destruct (Z.ltb_spec (rfind (a +:+ String "/" b) "/") 0) as [Hneg|Hpos];
      [|exact IH].
    apply rfind_none in Hneg. rewrite contains_app in Hneg. simpl in Hneg.
    by rewrite orb_true_r in Hneg.
Qed.

Lemma endswith_slash_split (a : string) :
  endswith_slash a = true → ∃ a', a = a' +:+ "/".
Proof.
  induction a as [|x a IH]; [done|]. simpl.
  destruct a as [|y a].
  - intros H. apply Ascii.eqb_eq in H as ->. by exists EmptyString.
  - intros H. destruct (IH H) as [a' Ha']. exists (String x a').
    change (String x (String y a) = String x (a' +:+ "/")). by rewrite Ha'.
Qed.

Lemma basename_join (folder name : string) :
  contains "/" name = false → basename (join folder name) = name.
Proof.
  intros Hname. unfold join.
  assert (startswith_slash name = false) as ->.
  { destruct name as [|x name]; [done|]. simpl in *.
    apply orb_false_elim in Hname as [Hx _].
    destruct (Ascii.eqb_spec x "/") as [->|Hne]; [done|].
    unfold startswith_slash. repeat case_match; simplify_eq; done. }
  destruct (String.eqb_spec folder "") as [->|Hfolder]; simpl.
  - by apply basename_no_slash.
  - destruct (endswith_slash folder) eqn:Hend.
    + destruct (endswith_slash_split folder Hend) as [a' ->].
      rewrite str_app_assoc. change ("/" +:+ name) with (String "/" name).
      by apply basename_app_slash.
    + change ("/" +:+ name) with (String "/" name). by apply basename_app_slash.
Qed.

(** X23: no token has a slash in it; and when the secured file name has
    none, the token [upload] binds is that name, whatever the upload
    folder. *)
Theorem token_is_file_name (folder name : string) :
  contains "/" (basename (join folder name)) = false
  ∧ (contains "/" name = false → basename (join folder name) = name).
Proof. split; [apply rfind_is_last | apply basename_join]. Qed.

Lemma token_is_file_name_witness :
  basename (join "/srv/webapp/uploads" "case_7.E01") = "case_7.E01".
Proof.
  apply (proj2 (token_is_file_name "/srv/webapp/uploads" "case_7.E01")).
  reflexivity.
Defined.

Lemma head_not_dot (x : ascii) (s : string) (A : Type) (yes no : A) :
  Ascii.eqb x "." = false →
  match String.get 0 (String x s) with
  | Some "."%char => yes
  | _ => no
  end = no.
Proof.
  destruct x as [[] [] [] [] [] [] [] []]; simpl; intros H; try reflexivity.
  discriminate H.
Qed.

(** X24: a name with no dot in it has no extension and is refused by
    [allowed_file]; so is a name that is a dot followed by characters with
    no dot among them, such as [.raw]: its leading dot does not start an
    extension. *)
Theorem allowed_file_needs_extension (s : string) :
  contains "." s = false →
  allowed_file s = false ∧ allowed_file (String "." s) = false.
Proof.
  intros Hs. pose proof Hs as Hdot. apply rfind_none in Hdot.
  split.
  - unfold allowed_file, splitext. pose proof (rfind_range s "/").
    by destruct (Z.ltb_spec (rfind s "/") (rfind s ".")); [lia|].
  - unfold allowed_file, splitext. rewrite !rfind_cons.
    destruct (Z.ltb_spec (rfind s ".") 0); [|lia]. simpl.
    pose proof (rfind_range s "/").
    destruct (Z.ltb_spec (rfind s "/") 0); simpl; [done|].
    by destruct (Z.ltb_spec (1 + rfind s "/") 0); [lia|].
Qed.

Lemma allowed_file_needs_extension_witness :
  allowed_file "raw" = false ∧ allowed_file ".raw" = false.
Proof. apply (allowed_file_needs_extension "raw"). reflexivity. Defined.

Lemma rfind_app_last (c : ascii) (a e : string) :
  contains c e = false →
  rfind (a +:+ String c e) c = Z.of_nat (String.length a).
Proof.
  intros He. apply rfind_none in He. induction a as [|x a IH].
  - change (rfind (String c e) c = 0%Z). rewrite rfind_cons.
    destruct (Z.ltb_spec (rfind e c) 0); [|lia]. by rewrite Ascii.eqb_refl.
  - change (rfind (String x (a +:+ String c e)) c
            = Z.of_nat (S (String.length a))).
    rewrite rfind_cons, IH.
    destruct (Z.ltb_spec (Z.of_nat (String.length a)) 0); lia.
Qed.

Lemma take_str_app (a b : string) : take_str (String.length a) (a +:+ b) = a.
Proof.
  induction a as [|x a IH]; [by destruct b|].
  change (String x (take_str (String.length a) (a +:+ b)) = String x a).
  by rewrite IH.
Qed.

Lemma drop_str_app (a b : string) : drop_str (String.length a) (a +:+ b) = b.
Proof. induction a as [|x a IH]; [by destruct b | exact IH]. Qed.

Lemma allowed_extension_shape (ext : string) :
  ext ∈ ALLOWED_EXTENSIONS →
  ∃ e, ext = String "." e ∧ contains "." e = false ∧ contains "/" e = false.
Proof.
  unfold ALLOWED_EXTENSIONS. rewrite elem_of_list_to_set.
  intros H. repeat (apply elem_of_cons in H as [->|H]; [by eexists|]).
  by apply elem_of_nil in H.
Qed.

(** X25: a plain stem, not empty and with no dot or slash in it, followed
    by one of the extensions of [ALLOWED_EXTENSIONS], is split into that
    stem and that extension, and is accepted by [allowed_file]. *)
Theorem allowed_file_accepts (stem ext : string) :
  stem ≠ EmptyString →
  contains "." stem = false →
  contains "/" stem = false →
  ext ∈ ALLOWED_EXTENSIONS →
  splitext (stem +:+ ext) = (stem, ext) ∧ allowed_file (stem +:+ ext) = true.
Proof.
  intros Hne Hdot Hslash Hext.
  destruct (allowed_extension_shape ext Hext) as (e & -> & Hed & Hes).
  assert (splitext (stem +:+ String "." e) = (stem, String "." e)) as Hsplit.
  { unfold splitext. rewrite (rfind_app_last "." stem e Hed).
    assert (rfind (stem +:+ String "." e) "/" = (-1)%Z) as ->.
    { pose proof (rfind_range (stem +:+ String "." e) "/").
      assert (contains "/" (stem +:+ String "." e) = false) as Hc.
      { rewrite contains_app, Hslash. simpl. exact Hes. }
      apply rfind_none in Hc. lia. }
    destruct stem as [|x stem]; [done|].
    destruct (Z.ltb_spec (-1) (Z.of_nat (String.length (String x stem))));
      [|simpl in *; lia].
    replace (Z.to_nat (Z.of_nat (String.length (String x stem)) - (-1 + 1)))
      with (S (String.length stem)) by (simpl; lia).
    cbn [splitext_loop]. change (Z.to_nat (-1 + 1)) with 0.
    change (String x stem +:+ String "." e)
      with (String x (stem +:+ String "." e)) at 1.
    simpl in Hdot. apply orb_false_elim in Hdot as [Hx _].
    rewrite (head_not_dot x _ _ _ _ Hx).
    rewrite Nat2Z.id. by rewrite take_str_app, drop_str_app. }
  split; [exact Hsplit|].
  unfold allowed_file. rewrite Hsplit. by apply bool_decide_eq_true_2.
Qed.

Lemma allowed_file_accepts_witness :
  splitext "evidence_2024-01-01.sparseimage"
  = ("evidence_2024-01-01", ".sparseimage")
  ∧ allowed_file "evidence_2024-01-01.sparseimage" = true.
Proof.
  apply (allowed_file_accepts "evidence_2024-01-01" ".sparseimage").
  - intros H. discriminate H.
  - reflexivity.
  - reflexivity.
  - vm_compute. reflexivity.
Defined.

End Paths.
